(** * The intersection filter of RemoveRiversfromWaterBodyPolygons.ipynb

    A shallow embedding of [Filter_shapefile_by_intersection], the one
    function of the notebook, and the properties its description states.

    The function takes two GeoDataFrames, joins them spatially with
    [gp.sjoin], collects the identifiers of the target rows that take part
    in the join, and selects the target rows by a boolean mask built from
    those identifiers.

    The cells of the notebook that read the two files, reproject them,
    call the function and write the result are modelled after it.

    Two layers are given.  The value layer works on frames as values and is
    the translation of the function body, statement by statement.  The store
    layer ([Module Store]) runs the same statements over a store of frame
    objects handed around by reference, as Python does; it is what a
    statement about the caller's objects needs.

    What belongs to the libraries is kept apart: the geometry predicates
    of shapely are parameters, the join of geopandas is its inner join
    (one joined row per pair of a left and a right row whose geometries
    satisfy the predicate), and [.loc] with a boolean mask is pandas' row
    selection, which refuses a mask of the wrong length.  What the join
    checks, warns about and refuses before it joins is the matter of a
    third layer ([Module Lib]), which runs the function and the cells with
    these checks; the value layer says what is returned when the join
    returns. *)

From stdpp Require Import gmap sorting strings.

(** ** Outcome of a Python call

    What the statements of the function can raise.  What the join of the
    library raises or warns about is in [Lib.Failure] and [Lib.Warning]. *)

Inductive Exception :=
  | IndexError          (* pandas: boolean mask of the wrong length *)
  | DanglingReference.  (* store layer: a reference to no object *)

Inductive Outcome (A : Type) :=
  | Returns (a : A)
  | Raises (e : Exception).
Arguments Returns {A} a.
Arguments Raises {A} e.

#[global] Instance Outcome_ret : MRet Outcome := λ A a, Returns a.
#[global] Instance Outcome_bind : MBind Outcome := λ A B k m,
  match m with
  | Returns a => k a
  | Raises e => Raises e
  end.

(** [filtertype]: Options = ['intersects', 'contains', 'within']. *)
Inductive FilterType := op_intersects | op_contains | op_within.

(** What the function returns: a pair, or a triple when [returnInverse]
    is set.  [F] is how a frame is handed back: a value, or a reference. *)
Inductive Returned (F : Type) :=
  | Ret2 (gpdDataFiltered : F) (IntersectIndex : list Z)
  | Ret3 (gpdDataFiltered : F) (IntersectIndex : list Z) (gpdDataInverse : F).
Arguments Ret2 {F} gpdDataFiltered IntersectIndex.
Arguments Ret3 {F} gpdDataFiltered IntersectIndex gpdDataInverse.

(** The components of the returned tuple, under the names of the
    description: [kept] and [excludedIds] always, [discarded] in a triple. *)
Definition kept {F} (r : Returned F) : F :=
  match r with
  | Ret2 gpdDataFiltered _ => gpdDataFiltered
  | Ret3 gpdDataFiltered _ _ => gpdDataFiltered
  end.

Definition excludedIds {F} (r : Returned F) : list Z :=
  match r with
  | Ret2 _ IntersectIndex => IntersectIndex
  | Ret3 _ IntersectIndex _ => IntersectIndex
  end.

Definition discarded {F} (r : Returned F) : option F :=
  match r with
  | Ret2 _ _ => None
  | Ret3 _ _ gpdDataInverse => Some gpdDataInverse
  end.

(** [sorted(s)] for a set of integers: the elements, sorted increasingly. *)
Definition sorted (s : gset Z) : list Z := merge_sort Z.le (elements s).

(** [set(xs)]. *)
Definition set (xs : list Z) : gset Z := list_to_set xs.

(** [idx.isin(values)]: one boolean per label of the index. *)
Definition isin (idx values : list Z) : list bool :=
  (λ i, bool_decide (i ∈ values)) <$> idx.

(** [~mask]. *)
Definition invert (mask : list bool) : list bool := negb <$> mask.

(** Selection by a boolean mask: the positions where the mask is true. *)
Fixpoint boolean_mask {A} (l : list A) (mask : list bool) : list A :=
  match l, mask with
  | x :: l, b :: mask =>
      if b then x :: boolean_mask l mask else boolean_mask l mask
  | _, _ => []
  end.

(** ** Value layer *)

Section Frames.
Context {Geom Attrs CRS : Type}.

(** A row of a frame: its index label, its geometry, its other columns. *)
Record Row := mkRow {
  index : Z;
  geometry : Geom;
  attributes : Attrs
}.

(** A GeoDataFrame: its rows in order and its [crs]. *)
Record GeoDataFrame := mkFrame {
  rows : list Row;
  crs : CRS
}.

(** A row of the joined frame: the left row, and of the right row its
    index label (column [index_right]) and its other columns. *)
Record JoinRow := mkJoinRow {
  left_row : Row;
  index_right : Z;
  attributes_right : Attrs
}.

(** shapely's [a.intersects(b)] and [a.contains(b)]. *)
Variable intersects contains : Geom → Geom → bool.

(** The predicate [op] between a left and a right geometry;
    [a.within(b)] is [b.contains(a)]. *)
Definition predicate (op : FilterType) (a b : Geom) : bool :=
  match op with
  | op_intersects => intersects a b
  | op_contains => contains a b
  | op_within => contains b a
  end.

(** The rows of [gp.sjoin(left_df, right_df, how="inner", op=op)]. *)
Definition sjoin (left_df right_df : GeoDataFrame) (op : FilterType)
  : list JoinRow :=
  flat_map
    (λ l, (λ r, mkJoinRow l (index r) (attributes r)) <$>
            filter (λ r, predicate op (geometry l) (geometry r))
                   (rows right_df))
    (rows left_df).

(** [df.index]. *)
Definition frame_index (df : GeoDataFrame) : list Z := index <$> rows df.

(** [df.loc[mask]] for a boolean mask. *)
Definition loc (df : GeoDataFrame) (mask : list bool)
  : Outcome GeoDataFrame :=
  if decide (length mask = length (rows df))
  then Returns (mkFrame (boolean_mask (rows df) mask) (crs df))
  else Raises IndexError.

(** The statements of the function after the join. *)
Definition Filter_after_join (gpdData : GeoDataFrame)
    (Intersections : list JoinRow) (invertMask returnInverse : bool)
  : Outcome (Returned GeoDataFrame) :=
  let IntersectIndex := sorted (set (index_right <$> Intersections)) in
  gpdDataFiltered ←
    (if invertMask
     then loc gpdData (invert (isin (frame_index gpdData) IntersectIndex))
     else loc gpdData (isin (frame_index gpdData) IntersectIndex));
  if returnInverse then
    gpdDataInverse ←
      (if invertMask
       then loc gpdData (isin (frame_index gpdData) IntersectIndex)
       else loc gpdData (invert (isin (frame_index gpdData) IntersectIndex)));
    mret (Ret3 gpdDataFiltered IntersectIndex gpdDataInverse)
  else
    mret (Ret2 gpdDataFiltered IntersectIndex).

(** The function.  The assertion on the two [crs] is commented out in
    the source, so the first statement executed is the join. *)
Definition Filter_shapefile_by_intersection (gpdData gpdFilter : GeoDataFrame)
    (filtertype : FilterType) (invertMask returnInverse : bool)
  : Outcome (Returned GeoDataFrame) :=
  let Intersections := sjoin gpdFilter gpdData filtertype in
  Filter_after_join gpdData Intersections invertMask returnInverse.

(** The Match Set as the description words it: the identifiers of the
    target rows whose geometry satisfies the predicate with at least one
    filter geometry. *)
Definition Match_Set (op : FilterType) (target filter_ : GeoDataFrame)
  : gset Z :=
  list_to_set
    (index <$>
       filter (λ t, Exists (λ g, predicate op (geometry g) (geometry t))
                           (rows filter_))
              (rows target)).

(** The targets whose identifier is in a set of identifiers, and those
    whose identifier is not, as the description words the two selections. *)
Definition targets_in (target : GeoDataFrame) (ids : gset Z) : GeoDataFrame :=
  mkFrame (filter (λ t, index t ∈ ids) (rows target)) (crs target).

Definition targets_not_in (target : GeoDataFrame) (ids : gset Z)
  : GeoDataFrame :=
  mkFrame (filter (λ t, index t ∉ ids) (rows target)) (crs target).
End Frames.

Arguments Row : clear implicits.
Arguments GeoDataFrame : clear implicits.
Arguments JoinRow : clear implicits.

(** ** Store layer

  Python hands frames around by reference.  A store maps references to
  frame objects; an operation that builds a frame allocates a new
  object, and nothing in the function assigns into an existing one. *)

Module Store.
Abbreviation ref := nat.
Abbreviation Heap Geom Attrs CRS := (gmap nat (GeoDataFrame Geom Attrs CRS)).

Section Store.
Context {Geom Attrs CRS : Type}.
Variable intersects contains : Geom → Geom → bool.

Local Abbreviation Frame := (GeoDataFrame Geom Attrs CRS).
Local Abbreviation Heap := (Heap Geom Attrs CRS).

(** A computation over the store that returns or raises. *)
Definition Py (A : Type) : Type := Heap → Outcome A * Heap.

#[global] Instance Py_ret : MRet Py := λ A a h, (Returns a, h).
#[global] Instance Py_bind : MBind Py := λ A B k m h,
  match m h with
  | (Returns a, h') => k a h'
  | (Raises e, h') => (Raises e, h')
  end.

(** Read the object behind a reference. *)
Definition deref (r : ref) : Py Frame := λ h,
  match h !! r with
  | Some df => (Returns df, h)
  | None => (Raises DanglingReference, h)
  end.

(** Allocate a new object. *)
Definition new (df : Frame) : Py ref := λ h,
  let r := fresh (dom h) in (Returns r, <[r := df]> h).

(** A step that does not touch the store. *)
Definition lift {A} (o : Outcome A) : Py A := λ h, (o, h).

Definition sjoin (left_df right_df : ref) (op : FilterType)
  : Py (list (JoinRow Geom Attrs)) :=
  L ← deref left_df;
  R ← deref right_df;
  mret (sjoin intersects contains L R op).

Definition frame_index (df : ref) : Py (list Z) :=
  D ← deref df;
  mret (frame_index D).

Definition loc (df : ref) (mask : list bool) : Py ref :=
  D ← deref df;
  selected ← lift (loc D mask);
  new selected.

Definition Filter_shapefile_by_intersection (gpdData gpdFilter : ref)
    (filtertype : FilterType) (invertMask returnInverse : bool)
  : Py (Returned ref) :=
  Intersections ← sjoin gpdFilter gpdData filtertype;
  let IntersectIndex := sorted (set (index_right <$> Intersections)) in
  gpdDataFiltered ←
    (if invertMask
     then idx ← frame_index gpdData;
          loc gpdData (invert (isin idx IntersectIndex))
     else idx ← frame_index gpdData;
          loc gpdData (isin idx IntersectIndex));
  if returnInverse then
    gpdDataInverse ←
      (if invertMask
       then idx ← frame_index gpdData;
            loc gpdData (isin idx IntersectIndex)
       else idx ← frame_index gpdData;
            loc gpdData (invert (isin idx IntersectIndex)));
    mret (Ret3 gpdDataFiltered IntersectIndex gpdDataInverse)
  else
    mret (Ret2 gpdDataFiltered IntersectIndex).

(** The frames behind a returned tuple of references. *)
Definition load (h : Heap) (r : Returned ref) : option (Returned Frame) :=
  match r with
  | Ret2 k ids => K ← h !! k; Some (Ret2 K ids)
  | Ret3 k ids i => K ← h !! k; I ← h !! i; Some (Ret3 K ids I)
  end.
End Store.
End Store.

(** ** A concrete geometry

    Geometries on the integer line: a closed interval [(lo, hi)].  It gives
    the general statements concrete inputs to be evaluated on.  The frames
    follow the scenario of the description: waterbody [0] touches no river,
    waterbody [1] is crossed by the river. *)

Module Line.
Definition Geom : Type := Z * Z.

Definition intersects (a b : Geom) : bool :=
  bool_decide (a.1 ≤ a.2 ∧ b.1 ≤ b.2 ∧ a.1 ≤ b.2 ∧ b.1 ≤ a.2)%Z.

Definition contains (a b : Geom) : bool :=
  bool_decide (a.1 ≤ b.1 ∧ b.1 ≤ b.2 ∧ b.2 ≤ a.2)%Z.

(** Coordinate reference systems by their EPSG code. *)
Definition epsg3577 : nat := 3577.
Definition epsg4326 : nat := 4326.

Definition WaterPolygons : GeoDataFrame Geom unit nat :=
  mkFrame [mkRow 0 (0, 2)%Z (); mkRow 1 (5, 9)%Z ()] epsg3577.

Definition MajorRivers : GeoDataFrame Geom unit nat :=
  mkFrame [mkRow 0 (7, 20)%Z ()] epsg3577.

(** Two river segments that both cross waterbody [1], and a third one
    inside waterbody [3]. *)
Definition RiverSegments : GeoDataFrame Geom unit nat :=
  mkFrame [mkRow 0 (7, 20)%Z (); mkRow 1 (4, 6)%Z (); mkRow 2 (31, 32)%Z ()]
          epsg3577.

Definition ThreePolygons : GeoDataFrame Geom unit nat :=
  mkFrame [mkRow 3 (30, 40)%Z (); mkRow 0 (0, 2)%Z (); mkRow 1 (5, 9)%Z ()]
          epsg3577.

Definition NoRivers : GeoDataFrame Geom unit nat := mkFrame [] epsg3577.

(** Two flood plains: the first contains waterbody [1], the second
    overlaps waterbody [3] without containing it. *)
Definition FloodPlains : GeoDataFrame Geom unit nat :=
  mkFrame [mkRow 0 (4, 10)%Z (); mkRow 1 (35, 60)%Z ()] epsg3577.

(** The rivers as read from a file in geographic coordinates and not
    reprojected. *)
Definition MajorRivers_unprojected : GeoDataFrame Geom unit nat :=
  mkFrame (rows MajorRivers) epsg4326.

Definition Filter :=
  Filter_shapefile_by_intersection (Attrs:=unit) (CRS:=nat) intersects contains.

(** A store that holds the two frames of the notebook. *)
Definition notebook_store : Store.Heap Geom unit nat :=
  {[ 0%nat := WaterPolygons; 1%nat := MajorRivers ]}.
End Line.


(** ** The cells of the notebook

    After the function, the notebook reads the river lines and the
    waterbodies from two shapefiles, reprojects each to EPSG:3577, calls
    the function with its default arguments, sets the [crs] of the result
    and writes it to a new shapefile.

    The two frames as read from the files are the inputs here, and the
    frame handed to [to_file] is the output.  A frame read from a file may
    lack a [crs]; [to_crs] refuses such a frame.  The transformation of a
    geometry between two systems belongs to the projection library and is
    a parameter. *)

Inductive NotebookError :=
  | NaiveGeometries            (* to_crs on a frame without crs: ValueError *)
  | TooManyValues              (* a triple unpacked into two names: ValueError *)
  | Raised (e : Exception).    (* raised inside the function *)

Inductive Cell (A : Type) :=
  | Done (a : A)
  | Failed (e : NotebookError).
Arguments Done {A} a.
Arguments Failed {A} e.

#[global] Instance Cell_ret : MRet Cell := λ A a, Done a.
#[global] Instance Cell_bind : MBind Cell := λ A B k m,
  match m with
  | Done a => k a
  | Failed e => Failed e
  end.

(** A call of the function from a cell. *)
Definition call {A} (o : Outcome A) : Cell A :=
  match o with
  | Returns a => Done a
  | Raises e => Failed (Raised e)
  end.

(** [a, b = returned]. *)
Definition unpack2 {F} (returned : Returned F) : Cell (F * list Z) :=
  match returned with
  | Ret2 a b => Done (a, b)
  | Ret3 _ _ _ => Failed TooManyValues
  end.

Section Notebook.
Context {Geom Attrs C : Type}.
Variable intersects contains : Geom → Geom → bool.

(** The transformation of a geometry from a system to another. *)
Variable transform : C → C → Geom → Geom.

(** [{'init': 'epsg:3577'}]. *)
Variable epsg3577 : C.

Local Abbreviation FileFrame := (GeoDataFrame Geom Attrs (option C)).

(** A row with its geometry brought from system [c] to system [c']. *)
Definition reproject_row (c c' : C) (r : Row Geom Attrs) : Row Geom Attrs :=
  mkRow (index r) (transform c c' (geometry r)) (attributes r).

(** [df.to_crs(crs)]: a new frame, same index and columns, every geometry
    transformed, tagged with the new system. *)
Definition to_crs (df : FileFrame) (crs_ : C) : Cell FileFrame :=
  match crs df with
  | None => Failed NaiveGeometries
  | Some c => Done (mkFrame (reproject_row c crs_ <$> rows df) (Some crs_))
  end.

(** [df.crs = crs]. *)
Definition set_crs (df : FileFrame) (crs_ : C) : FileFrame :=
  mkFrame (rows df) (Some crs_).

(** The cells in the order they run.  [MajorRivers_file] and
    [WaterPolygons_file] are the frames that [from_file] and [read_file]
    give; the result is the frame written by [to_file], and [Index]. *)
Definition notebook (MajorRivers_file WaterPolygons_file : FileFrame)
  : Cell (FileFrame * list Z) :=
  MajorRivers ← to_crs MajorRivers_file epsg3577;
  WaterPolygons ← to_crs WaterPolygons_file epsg3577;
  returned ← call (Filter_shapefile_by_intersection intersects contains
                     WaterPolygons MajorRivers op_intersects true false);
  unpacked ← unpack2 returned;
  let WaterBodiesBigRiverFiltered := unpacked.1 in
  let Index := unpacked.2 in
  let WaterBodiesBigRiverFiltered := set_crs WaterBodiesBigRiverFiltered epsg3577 in
  mret (WaterBodiesBigRiverFiltered, Index).
End Notebook.

(** ** More concrete inputs *)

Module Survey.
Import Line.

(** On the line, degrees become metres by a scaling; a system is its own
    EPSG code. *)
Definition transform (c c' : nat) (g : Geom) : Geom :=
  if decide (c = c') then g else (g.1 * 10, g.2 * 10)%Z.

(** Waterbodies and rivers as read from their files, both in degrees. *)
Definition WaterPolygons_file : GeoDataFrame Geom unit (option nat) :=
  mkFrame [mkRow 7 (0, 2)%Z (); mkRow 4 (5, 9)%Z (); mkRow 9 (12, 13)%Z ()]
          (Some epsg4326).

Definition MajorRivers_file : GeoDataFrame Geom unit (option nat) :=
  mkFrame [mkRow 0 (7, 20)%Z ()] (Some epsg4326).

(** A shapefile without projection file. *)
Definition MajorRivers_naive : GeoDataFrame Geom unit (option nat) :=
  mkFrame [mkRow 0 (7, 20)%Z ()] None.

(** Two polygons under one identifier: the first away from the river, the
    second crossed by it. *)
Definition SharedLabel : GeoDataFrame Geom unit nat :=
  mkFrame [mkRow 1 (0, 2)%Z (); mkRow 1 (5, 9)%Z (); mkRow 2 (30, 31)%Z ()]
          epsg3577.

(** A second set of river lines. *)
Definition MinorRivers : GeoDataFrame Geom unit nat :=
  mkFrame [mkRow 0 (1, 1)%Z (); mkRow 1 (100, 120)%Z ()] epsg3577.

(** The major rivers listed twice, in reverse, under other labels. *)
Definition RiverSegments_again : GeoDataFrame Geom unit nat :=
  mkFrame [mkRow 12 (31, 32)%Z (); mkRow 11 (4, 6)%Z (); mkRow 10 (7, 20)%Z ();
           mkRow 13 (4, 6)%Z ()] epsg4326.

Definition run_notebook :=
  notebook (Attrs:=unit) intersects contains transform epsg3577.
End Survey.

(** ** The call with the checks of the library

    [gp.sjoin] does more than join.  On entry it compares the [crs] of
    the two frames and warns when they differ, without stopping; it then
    refuses frames that have a column named [index_left] or
    [index_right], the names it gives to the index columns of its result.
    The releases of geopandas up to 0.7 also fail on a frame without
    rows; from 0.8 on such a frame is joined, to no rows.  The notebook
    names no release, so the release is a parameter.  When the join
    returns, its rows are those of [sjoin].

    This layer runs the function with these checks.  A frame comes with
    the names of its columns; a run has the warnings emitted, in order,
    and either what was raised or what was returned. *)

Module Lib.

Inductive Release :=
  | upto_0_7    (* a frame without rows makes the join fail *)
  | from_0_8.   (* a frame without rows is joined *)

Inductive Warning :=
  | CRSMismatch.   (* UserWarning: CRS of frames being joined does not match *)

Inductive Failure :=
  | ValueError_index_names   (* gp.sjoin: a column is named index_left or index_right *)
  | TypeError_no_rows        (* gp.sjoin up to 0.7: a frame without rows *)
  | by_statements (e : Exception)     (* raised by the statements after the join *)
  | by_cells (e : NotebookError).     (* raised by a cell of the notebook *)

Record Run (A : Type) := mkRun {
  warnings : list Warning;
  outcome : Failure + A
}.
Arguments mkRun {A} warnings outcome.
Arguments warnings {A} r.
Arguments outcome {A} r.

#[global] Instance Run_ret : MRet Run := λ A a, mkRun [] (inr a).
#[global] Instance Run_bind : MBind Run := λ A B k m,
  match outcome m with
  | inl e => mkRun (warnings m) (inl e)
  | inr a => mkRun (warnings m ++ warnings (k a)) (outcome (k a))
  end.

Definition warn (w : Warning) : Run unit := mkRun [w] (inr ()).
Definition raise {A} (e : Failure) : Run A := mkRun [] (inl e).

(** The statements of the function, and the cells, inside a run. *)
Definition statements {A} (o : Outcome A) : Run A :=
  match o with
  | Returns a => mret a
  | Raises e => raise (by_statements e)
  end.

Definition cells {A} (c : Cell A) : Run A :=
  match c with
  | Done a => mret a
  | Failed e => raise (by_cells e)
  end.

Section Lib.
Context {Geom Attrs CRS : Type} `{!EqDecision CRS}.
Variable intersects contains : Geom → Geom → bool.
Variable release : Release.

(** A frame with the names of its columns other than the geometry. *)
Record Table := mkTable {
  frame : GeoDataFrame Geom Attrs CRS;
  columns : list string
}.

(** The frame has a column under one of the two names the join needs. *)
Definition reserved (df : Table) : Prop :=
  "index_left" ∈ columns df ∨ "index_right" ∈ columns df.

Definition no_rows (df : Table) : bool :=
  match rows (frame df) with
  | [] => true
  | _ :: _ => false
  end.

(** [gp.sjoin(left_df, right_df, how="inner", op=op)] with its checks. *)
Definition gp_sjoin (left_df right_df : Table) (op : FilterType)
  : Run (list (JoinRow Geom Attrs)) :=
  _ ← (if decide (crs (frame left_df) = crs (frame right_df))
       then mret ()
       else warn CRSMismatch);
  _ ← (if decide (reserved left_df ∨ reserved right_df)
       then raise ValueError_index_names
       else mret ());
  _ ← (match release with
       | upto_0_7 =>
           if no_rows left_df || no_rows right_df
           then raise TypeError_no_rows
           else mret ()
       | from_0_8 => mret ()
       end);
  mret (sjoin intersects contains (frame left_df) (frame right_df) op).

(** The function: the join, then the statements after it.  The frames
    returned have the columns of [gpdData]. *)
Definition Filter_shapefile_by_intersection (gpdData gpdFilter : Table)
    (filtertype : FilterType) (invertMask returnInverse : bool)
  : Run (Returned (GeoDataFrame Geom Attrs CRS)) :=
  Intersections ← gp_sjoin gpdFilter gpdData filtertype;
  statements
    (Filter_after_join (frame gpdData) Intersections invertMask returnInverse).
End Lib.

Arguments Table : clear implicits.

Section LibNotebook.
Context {Geom Attrs C : Type} `{!EqDecision C}.
Variable intersects contains : Geom → Geom → bool.
Variable release : Release.
Variable transform : C → C → Geom → Geom.
Variable epsg3577 : C.

Local Abbreviation FileTable := (Table Geom Attrs (option C)).

(** [df.to_crs(crs)] keeps the columns. *)
Definition to_crs (df : FileTable) (crs_ : C) : Run FileTable :=
  reprojected ← cells (to_crs transform (frame df) crs_);
  mret (mkTable reprojected (columns df)).

(** The cells in the order they run, with the checks of the join. *)
Definition notebook (MajorRivers_file WaterPolygons_file : FileTable)
  : Run (GeoDataFrame Geom Attrs (option C) * list Z) :=
  MajorRivers ← to_crs MajorRivers_file epsg3577;
  WaterPolygons ← to_crs WaterPolygons_file epsg3577;
  returned ← Filter_shapefile_by_intersection intersects contains release
                WaterPolygons MajorRivers op_intersects true false;
  unpacked ← cells (unpack2 returned);
  let WaterBodiesBigRiverFiltered := unpacked.1 in
  let Index := unpacked.2 in
  let WaterBodiesBigRiverFiltered := set_crs WaterBodiesBigRiverFiltered epsg3577 in
  mret (WaterBodiesBigRiverFiltered, Index).
End LibNotebook.
End Lib.

(** ** Concrete frames with their columns *)

Module Tables.
Import Line Survey.

Definition WaterPolygons : Lib.Table Geom unit nat :=
  Lib.mkTable Line.WaterPolygons ["UID"; "area"].

Definition MajorRivers : Lib.Table Geom unit nat :=
  Lib.mkTable Line.MajorRivers ["HydroID"].

Definition MajorRivers_unprojected : Lib.Table Geom unit nat :=
  Lib.mkTable Line.MajorRivers_unprojected ["HydroID"].

Definition NoRivers : Lib.Table Geom unit nat :=
  Lib.mkTable Line.NoRivers ["HydroID"].

Definition ThreePolygons : Lib.Table Geom unit nat :=
  Lib.mkTable Line.ThreePolygons ["UID"; "area"].

Definition RiverSegments : Lib.Table Geom unit nat :=
  Lib.mkTable Line.RiverSegments ["HydroID"].

Definition RiverSegments_again : Lib.Table Geom unit nat :=
  Lib.mkTable (mkFrame (rows Survey.RiverSegments_again) epsg3577)
              ["name"; "length"].

(** The rivers after an earlier join: they kept its column [index_right]. *)
Definition MajorRivers_joined : Lib.Table Geom unit nat :=
  Lib.mkTable Line.MajorRivers ["HydroID"; "index_right"].

Definition WaterPolygons_file : Lib.Table Geom unit (option nat) :=
  Lib.mkTable Survey.WaterPolygons_file ["UID"; "area"].

Definition MajorRivers_file : Lib.Table Geom unit (option nat) :=
  Lib.mkTable Survey.MajorRivers_file ["HydroID"].

Definition Filter (release : Lib.Release) :=
  Lib.Filter_shapefile_by_intersection (Attrs:=unit) (CRS:=nat)
    intersects contains release.

Definition run_notebook (release : Lib.Release) :=
  Lib.notebook (Attrs:=unit) intersects contains release transform epsg3577.
End Tables.

(** * Properties *)

(** ** The list operations *)

Lemma length_isin idx values : length (isin idx values) = length idx.
Proof. unfold isin. by rewrite length_fmap. Qed.

Lemma length_invert mask : length (invert mask) = length mask.
Proof. unfold invert. by rewrite length_fmap. Qed.

Lemma boolean_mask_decide {A} (P : A → Prop) `{!∀ x, Decision (P x)} l :
  boolean_mask l ((λ x, bool_decide (P x)) <$> l) = filter P l.
Proof.
  induction l as [|x l IH]; [done|].
  cbn [fmap list_fmap boolean_mask]. rewrite filter_cons, IH.
  by destruct (decide (P x)) as [HP|HP];
    [rewrite (bool_decide_eq_true_2 _ HP)|rewrite (bool_decide_eq_false_2 _ HP)].
Qed.

Lemma boolean_mask_decide_not {A} (P : A → Prop) `{!∀ x, Decision (P x)} l :
  boolean_mask l (negb <$> ((λ x, bool_decide (P x)) <$> l))
  = filter (λ x, ¬ P x) l.
Proof.
  induction l as [|x l IH]; [done|].
  cbn [fmap list_fmap boolean_mask]. rewrite filter_cons, IH.
  destruct (decide (P x)) as [HP|HP].
  - rewrite (bool_decide_eq_true_2 _ HP). cbn. by rewrite decide_False by tauto.
  - rewrite (bool_decide_eq_false_2 _ HP). cbn. by rewrite decide_True.
Qed.

Lemma elem_of_sorted (s : gset Z) i : i ∈ sorted s ↔ i ∈ s.
Proof. unfold sorted. by rewrite merge_sort_Permutation, elem_of_elements. Qed.

Lemma elem_of_sorted_set xs i : i ∈ sorted (set xs) ↔ i ∈ xs.
Proof. unfold set. by rewrite elem_of_sorted, elem_of_list_to_set. Qed.

Lemma set_sorted (s : gset Z) : set (sorted s) = s.
Proof. apply set_eq. intros i. unfold set. by rewrite elem_of_list_to_set, elem_of_sorted. Qed.

Lemma NoDup_sorted (s : gset Z) : NoDup (sorted s).
Proof. unfold sorted. rewrite merge_sort_Permutation. apply NoDup_elements. Qed.

(** A list sorted by [≤] without repetition is sorted by [<]. *)
Lemma Sorted_le_NoDup_lt (l : list Z) :
  Sorted Z.le l → NoDup l → Sorted Z.lt l.
Proof.
  induction 1 as [|x l Hl IH Hhd]; intros Hnd; [constructor|].
  apply NoDup_cons in Hnd as [Hx Hnd]. constructor; [by apply IH|].
  destruct Hhd as [|y l' Hxy]; constructor.
  assert (x ≠ y) by (intros ->; apply Hx; left). lia.
Qed.

Lemma Sorted_lt_sorted (s : gset Z) : Sorted Z.lt (sorted s).
Proof.
  apply Sorted_le_NoDup_lt; [|apply NoDup_sorted].
  unfold sorted. apply (Sorted_merge_sort Z.le).
Qed.

(** ** The value layer *)

Section FilterProperties.
Context {Geom Attrs CRS : Type}.
Variable intersects contains : Geom → Geom → bool.

Local Abbreviation Frame := (GeoDataFrame Geom Attrs CRS).
Local Abbreviation Filter :=
  (Filter_shapefile_by_intersection (Attrs:=Attrs) (CRS:=CRS) intersects contains).
Local Abbreviation join := (sjoin (Attrs:=Attrs) (CRS:=CRS) intersects contains).
Local Abbreviation holds := (predicate intersects contains).
Local Abbreviation MatchSet :=
  (Match_Set (Attrs:=Attrs) (CRS:=CRS) intersects contains).

(** The selections by mask never fail: the mask is built from the index of
    the frame it selects from. *)
Lemma loc_isin (df : Frame) values :
  loc df (isin (frame_index df) values)
  = Returns (mkFrame (filter (λ t, index t ∈ values) (rows df)) (crs df)).
Proof.
  unfold loc. rewrite length_isin. unfold frame_index. rewrite length_fmap.
  rewrite decide_True by done. do 2 f_equal.
  unfold isin. rewrite <- list_fmap_compose.
  apply (boolean_mask_decide (λ t, index t ∈ values)).
Qed.

Lemma loc_invert_isin (df : Frame) values :
  loc df (invert (isin (frame_index df) values))
  = Returns (mkFrame (filter (λ t, index t ∉ values) (rows df)) (crs df)).
Proof.
  unfold loc. rewrite length_invert, length_isin. unfold frame_index.
  rewrite length_fmap, decide_True by done. do 2 f_equal.
  unfold isin, invert. rewrite <- (list_fmap_compose index).
  apply (boolean_mask_decide_not (λ t, index t ∈ values)).
Qed.

(** The identifiers in column [index_right] of the join. *)
Lemma elem_of_join_index (d f : Frame) op i :
  i ∈ index_right <$> join f d op ↔
  ∃ t g, t ∈ rows d ∧ g ∈ rows f ∧ index t = i
         ∧ holds op (geometry g) (geometry t).
Proof.
  unfold sjoin. rewrite list_elem_of_fmap. split.
  - intros (j & -> & Hj). apply list_elem_of_In, in_flat_map in Hj.
    destruct Hj as (g & Hg & Hj). apply list_elem_of_In in Hg, Hj.
    apply list_elem_of_fmap in Hj as (t & -> & Ht).
    apply list_elem_of_filter in Ht as [Hp Ht]. by exists t, g.
  - intros (t & g & Ht & Hg & <- & Hp).
    exists (mkJoinRow g (index t) (attributes t)). split; [done|].
    apply list_elem_of_In, in_flat_map. exists g.
    split; [by apply list_elem_of_In|]. apply list_elem_of_In.
    apply list_elem_of_fmap. exists t. split; [done|].
    by apply list_elem_of_filter.
Qed.

Lemma elem_of_Match_Set (d f : Frame) op i :
  i ∈ MatchSet op d f ↔
  ∃ t g, t ∈ rows d ∧ g ∈ rows f ∧ index t = i
         ∧ holds op (geometry g) (geometry t).
Proof.
  unfold Match_Set. rewrite elem_of_list_to_set, list_elem_of_fmap. split.
  - intros (t & -> & Ht). apply list_elem_of_filter in Ht as [Hex Ht].
    apply Exists_exists in Hex as (g & Hg & Hp). by exists t, g.
  - intros (t & g & Ht & Hg & <- & Hp). exists t. split; [done|].
    apply list_elem_of_filter. split; [|done].
    apply Exists_exists. by exists g.
Qed.

(** The identifiers the function collects are the Match Set. *)
Lemma set_join_index (d f : Frame) op :
  set (index_right <$> join f d op) = MatchSet op d f.
Proof.
  apply set_eq. intros i. unfold set.
  by rewrite elem_of_list_to_set, elem_of_join_index, elem_of_Match_Set.
Qed.

(** What the statements after the join return, in closed form. *)
Lemma Filter_after_join_returns (d : Frame) J invertMask returnInverse :
  Filter_after_join d J invertMask returnInverse
  = let ids := set (index_right <$> J) in
    let matching := targets_in d ids in
    let others := targets_not_in d ids in
    Returns
      (match invertMask, returnInverse with
       | true, true => Ret3 others (sorted ids) matching
       | true, false => Ret2 others (sorted ids)
       | false, true => Ret3 matching (sorted ids) others
       | false, false => Ret2 matching (sorted ids)
       end).
Proof.
  assert (Hin : ∀ ids : gset Z,
    filter (λ t : Row Geom Attrs, index t ∈ sorted ids) (rows d)
    = filter (λ t, index t ∈ ids) (rows d)).
  { intros ids. apply list_filter_iff. intros t. apply elem_of_sorted. }
  assert (Hout : ∀ ids : gset Z,
    filter (λ t : Row Geom Attrs, index t ∉ sorted ids) (rows d)
    = filter (λ t, index t ∉ ids) (rows d)).
  { intros ids. apply list_filter_iff. intros t. by rewrite elem_of_sorted. }
  unfold Filter_after_join, targets_in, targets_not_in.
  destruct invertMask, returnInverse;
    rewrite ?loc_isin, ?loc_invert_isin, ?Hin, ?Hout; reflexivity.
Qed.

Lemma Filter_returns (d f : Frame) op invertMask returnInverse :
  Filter d f op invertMask returnInverse
  = let ids := MatchSet op d f in
    let matching := targets_in d ids in
    let others := targets_not_in d ids in
    Returns
      (match invertMask, returnInverse with
       | true, true => Ret3 others (sorted ids) matching
       | true, false => Ret2 others (sorted ids)
       | false, true => Ret3 matching (sorted ids) others
       | false, false => Ret2 matching (sorted ids)
       end).
Proof.
  unfold Filter_shapefile_by_intersection.
  by rewrite Filter_after_join_returns, set_join_index.
Qed.

(** The two selections split the target: by rows and by identifiers. *)
Lemma targets_split (d : Frame) ids :
  rows (targets_in d ids) ++ rows (targets_not_in d ids) ≡ₚ rows d.
Proof. cbn. apply (filter_app_complement (λ t, index t ∈ ids)). Qed.

Lemma elem_of_index_targets_in (d : Frame) ids i :
  i ∈ frame_index (targets_in d ids) ↔ i ∈ frame_index d ∧ i ∈ ids.
Proof.
  unfold frame_index. cbn. rewrite !list_elem_of_fmap. split.
  - intros (t & -> & Ht). apply list_elem_of_filter in Ht as [? ?]. eauto.
  - intros [(t & -> & Ht) Hi]. exists t. by rewrite list_elem_of_filter.
Qed.

Lemma elem_of_index_targets_not_in (d : Frame) ids i :
  i ∈ frame_index (targets_not_in d ids) ↔ i ∈ frame_index d ∧ i ∉ ids.
Proof.
  unfold frame_index. cbn. rewrite !list_elem_of_fmap. split.
  - intros (t & -> & Ht). apply list_elem_of_filter in Ht as [? ?]. eauto.
  - intros [(t & -> & Ht) Hi]. exists t. by rewrite list_elem_of_filter.
Qed.

(** C1: for every target collection, filter collection, predicate and
    value of [invertMask], the returned [IntersectIndex] (excludedIds) is
    the literal Match Set, the identifiers of the targets that satisfy the
    predicate with at least one filter geometry, and it is the same list
    for [invertMask] true and false. *)
Theorem excludedIds_is_Match_Set (d f : Frame) op returnInverse :
  ∃ r_inverted r_plain,
    Filter d f op true returnInverse = Returns r_inverted ∧
    Filter d f op false returnInverse = Returns r_plain ∧
    set (excludedIds r_inverted) = MatchSet op d f ∧
    (∀ i, i ∈ excludedIds r_inverted ↔
          ∃ t g, t ∈ rows d ∧ g ∈ rows f ∧ index t = i
                 ∧ holds op (geometry g) (geometry t)) ∧
    excludedIds r_plain = excludedIds r_inverted.
Proof.
  rewrite !Filter_returns. cbn zeta. eexists _, _.
  split; [reflexivity|]. split; [reflexivity|].
  destruct returnInverse; cbn [excludedIds];
    (split; [apply set_sorted|]); (split; [|reflexivity]);
    intros i; by rewrite elem_of_sorted, elem_of_Match_Set.
Qed.

(** C2: with [invertMask] true the kept frame is exactly the targets whose
    identifier is not in the Match Set; with [invertMask] false it is
    exactly the targets whose identifier is in the Match Set. *)
Theorem kept_follows_invertMask (d f : Frame) op returnInverse :
  ∃ r_inverted r_plain,
    Filter d f op true returnInverse = Returns r_inverted ∧
    Filter d f op false returnInverse = Returns r_plain ∧
    kept r_inverted = targets_not_in d (MatchSet op d f) ∧
    kept r_plain = targets_in d (MatchSet op d f) ∧
    (∀ t, t ∈ rows (kept r_inverted) ↔
          t ∈ rows d ∧ index t ∉ MatchSet op d f) ∧
    (∀ t, t ∈ rows (kept r_plain) ↔
          t ∈ rows d ∧ index t ∈ MatchSet op d f).
Proof.
  rewrite !Filter_returns. cbn zeta. eexists _, _.
  split; [reflexivity|]. split; [reflexivity|].
  destruct returnInverse; cbn [kept];
    (split; [reflexivity|]); (split; [reflexivity|]);
    split; intros t; cbn; rewrite list_elem_of_filter; tauto.
Qed.

(** C3: with [returnInverse] true, every target identifier is in exactly
    one of the kept and the discarded frame: the two are disjoint and
    together they are the whole target collection. *)
Theorem kept_discarded_partition (d f : Frame) op invertMask :
  ∃ K ids I,
    Filter d f op invertMask true = Returns (Ret3 K ids I) ∧
    (∀ i, i ∈ frame_index d ↔ i ∈ frame_index K ∨ i ∈ frame_index I) ∧
    (∀ i, ¬ (i ∈ frame_index K ∧ i ∈ frame_index I)) ∧
    (∀ t, t ∈ rows d ↔ t ∈ rows K ∨ t ∈ rows I) ∧
    (∀ t, ¬ (t ∈ rows K ∧ t ∈ rows I)) ∧
    rows K ++ rows I ≡ₚ rows d ∧
    crs K = crs d ∧ crs I = crs d.
Proof.
  rewrite Filter_returns. cbn zeta.
  set (ids := MatchSet op d f).
  pose proof (targets_split d ids) as Hsplit.
  assert (Hrows : ∀ t : Row Geom Attrs,
            t ∈ rows d ↔ t ∈ rows (targets_in d ids) ∨ t ∈ rows (targets_not_in d ids)).
  { intros t. cbn. rewrite !list_elem_of_filter.
    destruct (decide (index t ∈ ids)); tauto. }
  assert (Hrows' : ∀ t : Row Geom Attrs,
            ¬ (t ∈ rows (targets_in d ids) ∧ t ∈ rows (targets_not_in d ids))).
  { intros t. cbn. rewrite !list_elem_of_filter. tauto. }
  assert (Hids : ∀ i, i ∈ frame_index d ↔
            i ∈ frame_index (targets_in d ids) ∨ i ∈ frame_index (targets_not_in d ids)).
  { intros i. rewrite elem_of_index_targets_not_in, elem_of_index_targets_in.
    destruct (decide (i ∈ ids)); tauto. }
  assert (Hids' : ∀ i,
            ¬ (i ∈ frame_index (targets_in d ids) ∧ i ∈ frame_index (targets_not_in d ids))).
  { intros i. rewrite elem_of_index_targets_not_in, elem_of_index_targets_in. tauto. }
  destruct invertMask; eexists _, _, _; (split; [reflexivity|]); split_and!;
    try done; try (intros x; specialize (Hrows x); specialize (Hrows' x); tauto);
    try (intros x; specialize (Hids x); specialize (Hids' x); tauto).
  by rewrite (comm (++)).
Qed.

Lemma Match_Set_empty_filter (d f : Frame) op :
  rows f = [] → MatchSet op d f = ∅.
Proof.
  intros Hf. apply set_eq. intros i. rewrite elem_of_Match_Set, Hf.
  split; [|by intros ?%not_elem_of_empty].
  by intros (t & g & _ & ?%not_elem_of_nil & _).
Qed.

Lemma Match_Set_empty_target (d f : Frame) op :
  rows d = [] → MatchSet op d f = ∅.
Proof.
  intros Hd. apply set_eq. intros i. rewrite elem_of_Match_Set, Hd.
  split; [|by intros ?%not_elem_of_empty].
  by intros (t & g & ?%not_elem_of_nil & _).
Qed.

Lemma sorted_empty : sorted ∅ = [].
Proof. unfold sorted. by rewrite elements_empty. Qed.

Lemma targets_not_in_empty (d : Frame) : targets_not_in d ∅ = d.
Proof.
  destruct d as [rs c]. unfold targets_not_in. cbn. f_equal.
  induction rs as [|t rs IH]; [done|].
  rewrite filter_cons_True by apply not_elem_of_empty. by rewrite IH.
Qed.


(** C7: provided the geometry library's [contains] implies its
    [intersects], the Match Set for predicate [contains] is a subset of the
    Match Set for predicate [intersects] on the same collections. *)
Theorem contains_subset_intersects (d f : Frame) invertMask returnInverse :
  (∀ a b, contains a b → intersects a b) →
  ∃ r_contains r_intersects,
    Filter d f op_contains invertMask returnInverse = Returns r_contains ∧
    Filter d f op_intersects invertMask returnInverse = Returns r_intersects ∧
    excludedIds r_contains ⊆ excludedIds r_intersects ∧
    MatchSet op_contains d f ⊆ MatchSet op_intersects d f.
Proof.
  intros Himp.
  assert (Hsub : MatchSet op_contains d f ⊆ MatchSet op_intersects d f).
  { intros i. rewrite !elem_of_Match_Set.
    intros (t & g & Ht & Hg & Hi & Hp). exists t, g. cbn in *. auto. }
  rewrite !Filter_returns. cbn zeta. eexists _, _.
  split; [reflexivity|]. split; [reflexivity|]. split; [|done].
  assert (sorted (MatchSet op_contains d f) ⊆ sorted (MatchSet op_intersects d f)).
  { intros i. rewrite !elem_of_sorted. apply Hsub. }
  by destruct invertMask, returnInverse.
Qed.

(** C8: the function is deterministic.  Its outputs are a function of its
    arguments alone: in whatever order, and however often, the join
    enumerates the matching pairs in an invocation, the statements after
    the join return the same kept frame, the same [IntersectIndex] and the
    same discarded frame, those of the function. *)
Theorem two_invocations_agree (d f : Frame) op invertMask returnInverse J1 J2 :
  (∀ j, j ∈ J1 ↔ j ∈ join f d op) →
  (∀ j, j ∈ J2 ↔ j ∈ join f d op) →
  Filter_after_join d J1 invertMask returnInverse
  = Filter d f op invertMask returnInverse ∧
  Filter_after_join d J2 invertMask returnInverse
  = Filter_after_join d J1 invertMask returnInverse.
Proof.
  intros H1 H2.
  assert (Hset : ∀ J : list (JoinRow Geom Attrs),
    (∀ j, j ∈ J ↔ j ∈ join f d op) →
    set (index_right <$> J) = set (index_right <$> join f d op)).
  { intros J HJ. apply set_eq. intros i. unfold set.
    rewrite !elem_of_list_to_set, !list_elem_of_fmap.
    split; intros (j & -> & Hj); exists j; (split; [done|]); by apply HJ. }
  unfold Filter_shapefile_by_intersection.
  rewrite !Filter_after_join_returns. cbn zeta.
  by rewrite (Hset J1 H1), (Hset J2 H2).
Qed.

(** C10: the returned [IntersectIndex] is sorted in increasing order of
    identifier and has no identifier twice, also when a target matches
    several filter geometries. *)
Theorem IntersectIndex_sorted_distinct (d f : Frame) op invertMask returnInverse :
  ∃ r, Filter d f op invertMask returnInverse = Returns r ∧
       Sorted Z.lt (excludedIds r) ∧ NoDup (excludedIds r).
Proof.
  rewrite Filter_returns. cbn zeta. eexists. split; [reflexivity|].
  destruct invertMask, returnInverse; cbn [excludedIds];
    split; auto using Sorted_lt_sorted, NoDup_sorted.
Qed.

End FilterProperties.

(** ** The store layer *)

Section StoreProperties.
Context {Geom Attrs CRS : Type}.
Variable intersects contains : Geom → Geom → bool.

Local Abbreviation Frame := (GeoDataFrame Geom Attrs CRS).
Local Abbreviation Heap := (gmap nat Frame).

Lemma deref_Some (h : Heap) r (df : Frame) :
  h !! r = Some df → Store.deref r h = (Returns df, h).
Proof. intros Hr. unfold Store.deref. by rewrite Hr. Qed.

Lemma new_fresh (h : Heap) (df : Frame) :
  ∃ r, Store.new df h = (Returns r, <[r := df]> h) ∧ h !! r = None.
Proof.
  exists (fresh (dom h)). split; [done|].
  apply not_elem_of_dom, is_fresh.
Qed.

(** Selecting rows of an object allocates the selection and leaves every
    object of the store as it was. *)
Lemma loc_run (h : Heap) r (df selected : Frame) mask :
  h !! r = Some df → loc df mask = Returns selected →
  ∃ k, Store.loc r mask h = (Returns k, <[k := selected]> h) ∧ h !! k = None.
Proof.
  intros Hr Hsel. destruct (new_fresh h selected) as (k & Hnew & Hk).
  exists k. split; [|done].
  unfold Store.loc, mbind, Store.Py_bind. rewrite (deref_Some _ _ _ Hr).
  unfold Store.lift. by rewrite Hsel.
Qed.

Lemma bind_Returns {A B} (m : Store.Py (Geom:=Geom) (Attrs:=Attrs) (CRS:=CRS) A)
    (k : A → Store.Py B) h a h' :
  m h = (Returns a, h') → (m ≫= k) h = k a h'.
Proof. intros Hm. unfold mbind, Store.Py_bind. by rewrite Hm. Qed.

Lemma sjoin_run (h : Heap) l r (L R : Frame) op :
  h !! l = Some L → h !! r = Some R →
  Store.sjoin intersects contains l r op h
  = (Returns (sjoin intersects contains L R op), h).
Proof.
  intros Hl Hr. unfold Store.sjoin.
  rewrite (bind_Returns _ _ _ _ _ (deref_Some _ _ _ Hl)).
  by rewrite (bind_Returns _ _ _ _ _ (deref_Some _ _ _ Hr)).
Qed.

Lemma frame_index_run (h : Heap) r (df : Frame) :
  h !! r = Some df → Store.frame_index r h = (Returns (frame_index df), h).
Proof.
  intros Hr. unfold Store.frame_index.
  by rewrite (bind_Returns _ _ _ _ _ (deref_Some _ _ _ Hr)).
Qed.

(** One selection [gpdData.loc[mask(gpdData.index)]], run over the store. *)
Lemma selection_run (h : Heap) d (D K : Frame) (mask : list Z → list bool) :
  h !! d = Some D → loc D (mask (frame_index D)) = Returns K →
  ∃ k, (idx ← Store.frame_index d; Store.loc d (mask idx)) h
       = (Returns k, <[k := K]> h) ∧ h !! k = None.
Proof.
  intros Hd HK. rewrite (bind_Returns _ _ _ _ _ (frame_index_run _ _ _ Hd)).
  by apply (loc_run h d D).
Qed.

(** The two selections of the function, one after the other. *)
Lemma selections_run (h : Heap) d (D K I : Frame) mask1 mask2 ids
    (returnInverse : bool) :
  h !! d = Some D →
  loc D (mask1 (frame_index D)) = Returns K →
  loc D (mask2 (frame_index D)) = Returns I →
  ∃ r h',
    (k ← (idx ← Store.frame_index d; Store.loc d (mask1 idx));
     if returnInverse
     then i ← (idx ← Store.frame_index d; Store.loc d (mask2 idx));
          mret (Ret3 k ids i)
     else mret (Ret2 k ids)) h = (Returns r, h') ∧
    h ⊆ h' ∧
    Store.load h' r = Some (if returnInverse then Ret3 K ids I else Ret2 K ids).
Proof.
  intros Hd HK HI.
  destruct (selection_run h d D K mask1 Hd HK) as (k & Hrun1 & Hk).
  rewrite (bind_Returns _ _ _ _ _ Hrun1).
  assert (Hsub1 : h ⊆ <[k := K]> h) by by apply insert_subseteq.
  destruct returnInverse.
  - assert (Hd' : <[k := K]> h !! d = Some D)
      by (eapply lookup_weaken; eassumption).
    destruct (selection_run _ d D I mask2 Hd' HI) as (i & Hrun2 & Hi).
    rewrite (bind_Returns _ _ _ _ _ Hrun2).
    eexists _, _. split; [reflexivity|]. split.
    + etrans; [exact Hsub1|]. by apply insert_subseteq.
    + cbn. assert (i ≠ k) by (intros ->; by rewrite lookup_insert_eq in Hi).
      rewrite (lookup_insert_ne _ i k) by done. rewrite lookup_insert_eq. cbn.
      by rewrite lookup_insert_eq.
  - eexists _, _. split; [reflexivity|]. split; [done|].
    cbn. by rewrite lookup_insert_eq.
Qed.

(** The store layer refines the value layer: on a store that holds the two
    frames the call returns, the returned references lead to the frames the
    value layer computes, and the store has only grown. *)
Lemma Store_Filter_run (h : Heap) d f (D F : Frame) op invertMask returnInverse :
  h !! d = Some D → h !! f = Some F →
  ∃ r h' R,
    Store.Filter_shapefile_by_intersection intersects contains
      d f op invertMask returnInverse h = (Returns r, h') ∧
    h ⊆ h' ∧
    Store.load h' r = Some R ∧
    Filter_shapefile_by_intersection intersects contains
      D F op invertMask returnInverse = Returns R.
Proof.
  intros Hd Hf. unfold Store.Filter_shapefile_by_intersection.
  rewrite (bind_Returns _ _ _ _ _ (sjoin_run _ _ _ _ _ op Hf Hd)). cbn zeta.
  unfold Filter_shapefile_by_intersection, Filter_after_join.
  set (ids := sorted (set (index_right <$> sjoin intersects contains F D op))).
  destruct invertMask.
  - destruct (selections_run h d D _ _
                (λ idx, invert (isin idx ids)) (λ idx, isin idx ids)
                ids returnInverse Hd
                (loc_invert_isin D ids) (loc_isin D ids))
      as (r & h' & Hrun & Hsub & Hload).
    eexists r, h', _.
    split; [exact Hrun|]. split; [exact Hsub|]. split; [exact Hload|].
    rewrite loc_invert_isin, loc_isin. by destruct returnInverse.
  - destruct (selections_run h d D _ _
                (λ idx, isin idx ids) (λ idx, invert (isin idx ids))
                ids returnInverse Hd
                (loc_isin D ids) (loc_invert_isin D ids))
      as (r & h' & Hrun & Hsub & Hload).
    eexists r, h', _.
    split; [exact Hrun|]. split; [exact Hsub|]. split; [exact Hload|].
    rewrite loc_invert_isin, loc_isin. by destruct returnInverse.
Qed.

(** C9: the function does not change its inputs.  After a call on a store
    that holds the two collections, the call has returned, the target and
    the filter collection are the objects they were, and so is every other
    object of the store. *)
Theorem inputs_unchanged (h : Heap) d f (D F : Frame) op invertMask returnInverse :
  h !! d = Some D → h !! f = Some F →
  ∃ r h',
    Store.Filter_shapefile_by_intersection intersects contains
      d f op invertMask returnInverse h = (Returns r, h') ∧
    h' !! d = Some D ∧ h' !! f = Some F ∧
    (∀ o df, h !! o = Some df → h' !! o = Some df).
Proof.
  intros Hd Hf.
  destruct (Store_Filter_run h d f D F op invertMask returnInverse Hd Hf)
    as (r & h' & R & Hrun & Hsub & _).
  exists r, h'. split; [exact Hrun|].
  split_and!; [by eapply lookup_weaken..|].
  intros o df Ho. by eapply lookup_weaken.
Qed.

End StoreProperties.

(** * The properties on concrete inputs *)

Module LineFacts.
Import Line.

(** The scenario of the description: waterbody [0] touches no river,
    waterbody [1] is crossed by the river. *)
Example scenario_inverted :
  Filter WaterPolygons MajorRivers op_intersects true false
  = Returns (Ret2 (mkFrame [mkRow 0 (0, 2)%Z ()] epsg3577) [1%Z]).
Proof. reflexivity. Qed.

Example scenario_plain :
  Filter WaterPolygons MajorRivers op_intersects false false
  = Returns (Ret2 (mkFrame [mkRow 1 (5, 9)%Z ()] epsg3577) [1%Z]).
Proof. reflexivity. Qed.

Example scenario_inverse :
  Filter WaterPolygons MajorRivers op_intersects true true
  = Returns (Ret3 (mkFrame [mkRow 0 (0, 2)%Z ()] epsg3577) [1%Z]
                  (mkFrame [mkRow 1 (5, 9)%Z ()] epsg3577)).
Proof. reflexivity. Qed.

(** Waterbody [1] is crossed by two rivers and comes after waterbody [3]
    in the frame: the join names it twice, the returned list once and in
    increasing order. *)
Example join_names_twice :
  index_right <$> sjoin intersects contains RiverSegments ThreePolygons op_intersects
  = [1; 1; 3]%Z.
Proof. reflexivity. Qed.

Example index_once_and_sorted :
  Filter ThreePolygons RiverSegments op_intersects true false
  = Returns (Ret2 (mkFrame [mkRow 0 (0, 2)%Z ()] epsg3577) [1; 3]%Z).
Proof. reflexivity. Qed.

(** [contains] selects fewer targets than [intersects]. *)
Example contains_selects :
  Filter ThreePolygons FloodPlains op_contains false false
  = Returns (Ret2 (mkFrame [mkRow 1 (5, 9)%Z ()] epsg3577) [1%Z]).
Proof. reflexivity. Qed.

Example intersects_selects :
  Filter ThreePolygons FloodPlains op_intersects false false
  = Returns (Ret2 (mkFrame [mkRow 3 (30, 40)%Z (); mkRow 1 (5, 9)%Z ()]
                           epsg3577) [1; 3]%Z).
Proof. reflexivity. Qed.

Lemma contains_intersects (a b : Geom) : contains a b → intersects a b.
Proof.
  unfold contains, intersects. rewrite !bool_decide_spec. lia.
Qed.
End LineFacts.


Lemma contains_subset_intersects_witness :
  (∀ a b, Line.contains a b → Line.intersects a b) ∧
  ∃ r_contains r_intersects,
    Line.Filter Line.ThreePolygons Line.FloodPlains op_contains true false
    = Returns r_contains ∧
    Line.Filter Line.ThreePolygons Line.FloodPlains op_intersects true false
    = Returns r_intersects ∧
    excludedIds r_contains ⊆ excludedIds r_intersects ∧
    Match_Set Line.intersects Line.contains op_contains
      Line.ThreePolygons Line.FloodPlains
    ⊆ Match_Set Line.intersects Line.contains op_intersects
        Line.ThreePolygons Line.FloodPlains.
Proof.
  split; [exact LineFacts.contains_intersects|].
  apply (contains_subset_intersects Line.intersects Line.contains
           Line.ThreePolygons Line.FloodPlains true false).
  exact LineFacts.contains_intersects.
Defined.

Lemma two_invocations_agree_witness :
  let J := sjoin Line.intersects Line.contains Line.RiverSegments
             Line.ThreePolygons op_intersects in
  (∀ j, j ∈ reverse J ↔ j ∈ J) ∧
  (∀ j, j ∈ J ++ J ↔ j ∈ J) ∧
  Filter_after_join Line.ThreePolygons (reverse J) true true
  = Line.Filter Line.ThreePolygons Line.RiverSegments op_intersects true true ∧
  Filter_after_join Line.ThreePolygons (J ++ J) true true
  = Filter_after_join Line.ThreePolygons (reverse J) true true.
Proof.
  intros J.
  assert (H1 : ∀ j, j ∈ reverse J ↔ j ∈ J) by (intros j; apply elem_of_reverse).
  assert (H2 : ∀ j, j ∈ J ++ J ↔ j ∈ J) by (intros j; rewrite elem_of_app; tauto).
  split; [exact H1|]. split; [exact H2|].
  exact (two_invocations_agree Line.intersects Line.contains
           Line.ThreePolygons Line.RiverSegments op_intersects true true
           (reverse J) (J ++ J) H1 H2).
Defined.

Lemma inputs_unchanged_witness :
  Line.notebook_store !! 0%nat = Some Line.WaterPolygons ∧
  Line.notebook_store !! 1%nat = Some Line.MajorRivers ∧
  ∃ r h',
    Store.Filter_shapefile_by_intersection Line.intersects Line.contains
      0%nat 1%nat op_intersects true true Line.notebook_store
    = (Returns r, h') ∧
    h' !! 0%nat = Some Line.WaterPolygons ∧
    h' !! 1%nat = Some Line.MajorRivers ∧
    (∀ o df, Line.notebook_store !! o = Some df → h' !! o = Some df).
Proof.
  split; [reflexivity|]. split; [reflexivity|].
  apply (inputs_unchanged Line.intersects Line.contains Line.notebook_store
           0%nat 1%nat Line.WaterPolygons Line.MajorRivers
           op_intersects true true); reflexivity.
Defined.

(** The call of the notebook on the store: two new objects, the kept and
    the discarded frame, next to the two collections. *)
Example notebook_call :
  Store.Filter_shapefile_by_intersection Line.intersects Line.contains
    0%nat 1%nat op_intersects true true Line.notebook_store
  = (Returns (Ret3 2%nat [1%Z] 3%nat),
     <[3%nat := mkFrame [mkRow 1 (5, 9)%Z ()] Line.epsg3577]>
       (<[2%nat := mkFrame [mkRow 0 (0, 2)%Z ()] Line.epsg3577]>
          Line.notebook_store)).
Proof. by vm_compute. Qed.


(** * Further properties of the function *)

Section FilterFurther.
Context {Geom Attrs CRS : Type}.
Variable intersects contains : Geom → Geom → bool.

Local Abbreviation Frame := (GeoDataFrame Geom Attrs CRS).
Local Abbreviation Filter :=
  (Filter_shapefile_by_intersection (Attrs:=Attrs) (CRS:=CRS) intersects contains).
Local Abbreviation holds := (predicate intersects contains).
Local Abbreviation MatchSet :=
  (Match_Set (Attrs:=Attrs) (CRS:=CRS) intersects contains).

Lemma Match_Set_index (d f : Frame) op i :
  i ∈ MatchSet op d f → i ∈ frame_index d.
Proof.
  rewrite elem_of_Match_Set. intros (t & g & Ht & _ & <- & _).
  unfold frame_index. apply list_elem_of_fmap. eauto.
Qed.

(** Rows with distinct labels are told apart by their label. *)
Lemma NoDup_index_inj (rs : list (Row Geom Attrs)) t t' :
  NoDup (index <$> rs) → t ∈ rs → t' ∈ rs → index t = index t' → t = t'.
Proof.
  induction rs as [|r rs IH]; [by intros _ ?%not_elem_of_nil|].
  rewrite fmap_cons, NoDup_cons, !elem_of_cons.
  intros [Hr Hnd] [->|Ht] [->|Ht'] Heq; [done| | |by apply IH].
  - destruct Hr. rewrite Heq. apply list_elem_of_fmap. eauto.
  - destruct Hr. rewrite <- Heq. apply list_elem_of_fmap. eauto.
Qed.

(** X2: the kept frame, and the discarded frame when there is one, is the
    target frame with rows left out: the rows that stay are unchanged
    (label, geometry, other columns), in the order of the target, and the
    frame carries the target's [crs]. *)
Theorem selections_are_sublists (d f : Frame) op invertMask returnInverse :
  ∃ r, Filter d f op invertMask returnInverse = Returns r ∧
       rows (kept r) `sublist_of` rows d ∧ crs (kept r) = crs d ∧
       from_option (λ I, rows I `sublist_of` rows d ∧ crs I = crs d)
                   True (discarded r).
Proof.
  rewrite Filter_returns. cbn zeta. eexists. split; [reflexivity|].
  destruct invertMask, returnInverse; cbn;
    split_and!; try done; apply sublist_filter.
Qed.

(** X3: the four ways to call the function return the same two selections
    and the same list, arranged differently: [invertMask] swaps the kept
    and the discarded frame, [returnInverse] only adds the discarded one. *)
Theorem modes_share_selections (d f : Frame) op :
  ∃ matching others ids,
    Filter d f op true true = Returns (Ret3 others ids matching) ∧
    Filter d f op false true = Returns (Ret3 matching ids others) ∧
    Filter d f op true false = Returns (Ret2 others ids) ∧
    Filter d f op false false = Returns (Ret2 matching ids).
Proof. rewrite !Filter_returns. cbn zeta. by eexists _, _, _. Qed.

(** X4: the returned list and the kept frame determine each other's
    labels.  With [invertMask] the list names exactly the labels of the
    target that are absent from the kept frame; without it, exactly the
    labels of the kept frame. *)
Theorem IntersectIndex_against_kept (d f : Frame) op returnInverse :
  ∃ r_inverted r_plain,
    Filter d f op true returnInverse = Returns r_inverted ∧
    Filter d f op false returnInverse = Returns r_plain ∧
    (∀ i, i ∈ excludedIds r_inverted ↔
          i ∈ frame_index d ∧ i ∉ frame_index (kept r_inverted)) ∧
    (∀ i, i ∈ excludedIds r_plain ↔ i ∈ frame_index (kept r_plain)).
Proof.
  rewrite !Filter_returns. cbn zeta. eexists _, _.
  split; [reflexivity|]. split; [reflexivity|].
  pose proof (Match_Set_index d f op) as Hidx.
  destruct returnInverse; cbn [kept excludedIds]; split; intros i;
    rewrite elem_of_sorted,
      ?elem_of_index_targets_not_in, ?elem_of_index_targets_in;
    specialize (Hidx i); destruct (decide (i ∈ MatchSet op d f)); tauto.
Qed.

Lemma length_targets_in (d : Frame) (ids : gset Z) :
  NoDup (frame_index d) → (∀ i, i ∈ ids → i ∈ frame_index d) →
  length (rows (targets_in d ids)) = length (sorted ids).
Proof.
  intros Hnd Hsub.
  rewrite <- (length_fmap index (rows (targets_in d ids))).
  apply Permutation_length, NoDup_Permutation.
  - eapply sublist_NoDup; [exact Hnd|]. unfold frame_index. cbn.
    apply fmap_sublist, sublist_filter.
  - apply NoDup_sorted.
  - intros i. rewrite elem_of_sorted.
    change (index <$> rows (targets_in d ids))
      with (frame_index (targets_in d ids)).
    rewrite elem_of_index_targets_in. specialize (Hsub i). tauto.
Qed.

(** X5: when the labels of the target are distinct, the returned list is
    as long as the number of rows removed: with [invertMask] the kept rows
    and the listed labels add up to the target, without it there is one
    label per kept row. *)
Theorem IntersectIndex_counts_rows (d f : Frame) op :
  NoDup (frame_index d) →
  ∃ K_inverted K_plain ids,
    Filter d f op true false = Returns (Ret2 K_inverted ids) ∧
    Filter d f op false false = Returns (Ret2 K_plain ids) ∧
    length (rows K_inverted) + length ids = length (rows d) ∧
    length (rows K_plain) = length ids.
Proof.
  intros Hnd. rewrite !Filter_returns. cbn zeta. eexists _, _, _.
  split; [reflexivity|]. split; [reflexivity|].
  pose proof (length_targets_in d (MatchSet op d f) Hnd
                (Match_Set_index d f op)) as Hlen.
  split; [|exact Hlen].
  rewrite <- Hlen, Nat.add_comm, <- length_app.
  apply Permutation_length, targets_split.
Qed.

(** The Match Set of a selection of the target. *)
Lemma Match_Set_targets_not_in (d f f' : Frame) op op' :
  MatchSet op' (targets_not_in d (MatchSet op d f)) f'
  = MatchSet op' d f' ∖ MatchSet op d f.
Proof.
  apply set_eq. intros i.
  rewrite elem_of_difference, !elem_of_Match_Set. cbn. split.
  - intros (t & g & [Hout Ht]%list_elem_of_filter & Hg & <- & Hp).
    split; [by exists t, g|].
    intros Hin. apply Hout, elem_of_Match_Set, Hin.
  - intros [(t & g & Ht & Hg & <- & Hp) Hout]. exists t, g.
    split_and!; try done. apply list_elem_of_filter. split; [|done].
    intros Hin. apply Hout, elem_of_Match_Set, Hin.
Qed.

Lemma Match_Set_targets_in (d f : Frame) op :
  MatchSet op (targets_in d (MatchSet op d f)) f = MatchSet op d f.
Proof.
  apply set_eq. intros i. rewrite !elem_of_Match_Set. cbn. split.
  - intros (t & g & [_ Ht]%list_elem_of_filter & Hg & <- & Hp). by exists t, g.
  - intros (t & g & Ht & Hg & <- & Hp). exists t, g.
    split_and!; try done. apply list_elem_of_filter. split; [|done].
    apply elem_of_Match_Set. by exists t, g.
Qed.

Lemma targets_not_in_twice (d : Frame) (ids ids' : gset Z) :
  targets_not_in (targets_not_in d ids) ids' = targets_not_in d (ids ∪ ids').
Proof.
  unfold targets_not_in. cbn. f_equal.
  rewrite list_filter_filter. apply list_filter_iff. intros t.
  rewrite not_elem_of_union. tauto.
Qed.

(** X6: filtering is idempotent.  When the kept frame is filtered again by
    the same collection and predicate, it comes back as it is: with
    [invertMask] nothing matches any more and the list is empty; without
    it every row is kept again and the list is the same. *)
Theorem filtering_twice (d f : Frame) op :
  ∃ K_inverted K_plain ids,
    Filter d f op true false = Returns (Ret2 K_inverted ids) ∧
    Filter K_inverted f op true false = Returns (Ret2 K_inverted []) ∧
    Filter d f op false false = Returns (Ret2 K_plain ids) ∧
    Filter K_plain f op false false = Returns (Ret2 K_plain ids).
Proof.
  rewrite !Filter_returns. cbn zeta. eexists _, _, _.
  split; [reflexivity|]. split; [|split; [reflexivity|]].
  - rewrite Filter_returns. cbn zeta.
    rewrite Match_Set_targets_not_in, difference_diag_L, sorted_empty.
    by rewrite targets_not_in_empty.
  - rewrite Filter_returns. cbn zeta.
    rewrite Match_Set_targets_in. do 2 f_equal.
    unfold targets_in. cbn. f_equal.
    rewrite list_filter_filter. apply list_filter_iff. tauto.
Qed.

(** X7: filtering by two collections one after the other keeps the same
    frame as filtering once by the two collections put together; the list
    of the single call is the two lists of the successive calls, which
    have no label in common. *)
Theorem filtering_in_sequence (d f1 f2 : Frame) op c :
  ∃ K1 ids1 K2 ids2 ids,
    Filter d f1 op true false = Returns (Ret2 K1 ids1) ∧
    Filter K1 f2 op true false = Returns (Ret2 K2 ids2) ∧
    Filter d (mkFrame (rows f1 ++ rows f2) c) op true false
    = Returns (Ret2 K2 ids) ∧
    (∀ i, i ∈ ids ↔ i ∈ ids1 ∨ i ∈ ids2) ∧
    (∀ i, ¬ (i ∈ ids1 ∧ i ∈ ids2)).
Proof.
  assert (Hcat : MatchSet op d (mkFrame (rows f1 ++ rows f2) c)
                 = MatchSet op d f1 ∪ MatchSet op d f2).
  { apply set_eq. intros i. rewrite elem_of_union, !elem_of_Match_Set. cbn.
    split.
    - intros (t & g & Ht & [Hg|Hg]%elem_of_app & Hi & Hp);
        [left|right]; by exists t, g.
    - intros [(t & g & Ht & Hg & Hi & Hp)|(t & g & Ht & Hg & Hi & Hp)];
        exists t, g; rewrite elem_of_app; auto. }
  assert (Hun : MatchSet op d f1 ∪ MatchSet op d f2 ∖ MatchSet op d f1
                = MatchSet op d f1 ∪ MatchSet op d f2).
  { apply set_eq. intros i. rewrite !elem_of_union, elem_of_difference.
    destruct (decide (i ∈ MatchSet op d f1)); tauto. }
  exists (targets_not_in d (MatchSet op d f1)), (sorted (MatchSet op d f1)),
    (targets_not_in d (MatchSet op d f1 ∪ MatchSet op d f2)),
    (sorted (MatchSet op d f2 ∖ MatchSet op d f1)),
    (sorted (MatchSet op d f1 ∪ MatchSet op d f2)).
  split_and!.
  - by rewrite Filter_returns.
  - rewrite Filter_returns. cbn zeta.
    by rewrite Match_Set_targets_not_in, targets_not_in_twice, Hun.
  - rewrite Filter_returns. cbn zeta. by rewrite Hcat.
  - intros i. rewrite !elem_of_sorted, elem_of_union, elem_of_difference.
    destruct (decide (i ∈ MatchSet op d f1)); tauto.
  - intros i. rewrite !elem_of_sorted, elem_of_difference. tauto.
Qed.

(** X8: more filter geometries remove more.  When every row of a filter
    collection is also in a second one, the list for the first is within
    the list for the second, and the frame kept with the second is the
    frame kept with the first with rows left out. *)
Theorem more_filter_removes_more (d f f' : Frame) op :
  (∀ g, g ∈ rows f → g ∈ rows f') →
  ∃ K ids K' ids',
    Filter d f op true false = Returns (Ret2 K ids) ∧
    Filter d f' op true false = Returns (Ret2 K' ids') ∧
    ids ⊆ ids' ∧ rows K' `sublist_of` rows K.
Proof.
  intros Hsub. rewrite !Filter_returns. cbn zeta. eexists _, _, _, _.
  split; [reflexivity|]. split; [reflexivity|].
  assert (Hms : ∀ i, i ∈ MatchSet op d f → i ∈ MatchSet op d f').
  { intros i. rewrite !elem_of_Match_Set.
    intros (t & g & Ht & Hg & Hi & Hp). exists t, g. auto. }
  split.
  - intros i. rewrite !elem_of_sorted. apply Hms.
  - cbn.
    assert (filter (λ t : Row Geom Attrs, index t ∉ MatchSet op d f') (rows d)
            = filter (λ t, index t ∉ MatchSet op d f')
                (filter (λ t, index t ∉ MatchSet op d f) (rows d))) as ->.
    { rewrite list_filter_filter. apply list_filter_iff. intros t.
      specialize (Hms (index t)). tauto. }
    apply sublist_filter.
Qed.

(** Two filter frames with the same geometries give the same Match Set,
    hence the same value. *)
Lemma Filter_same_geometries (d f f' : Frame) op invertMask returnInverse :
  (∀ g, g ∈ geometry <$> rows f ↔ g ∈ geometry <$> rows f') →
  Filter d f op invertMask returnInverse
  = Filter d f' op invertMask returnInverse.
Proof.
  intros Hgeo. rewrite !Filter_returns.
  assert (MatchSet op d f = MatchSet op d f') as ->; [|done].
  assert (Hdir : ∀ f1 f2 : Frame,
    (∀ g, g ∈ geometry <$> rows f1 → g ∈ geometry <$> rows f2) →
    ∀ i, i ∈ MatchSet op d f1 → i ∈ MatchSet op d f2).
  { intros f1 f2 H12 i. rewrite !elem_of_Match_Set.
    intros (t & g & Ht & Hg & Hi & Hp).
    assert (Hin : geometry g ∈ geometry <$> rows f2)
      by (apply H12, list_elem_of_fmap; eauto).
    apply list_elem_of_fmap in Hin as (g' & Hgeq & Hg').
    exists t, g'. rewrite <- Hgeq. auto. }
  apply set_eq. intros i. split; apply Hdir; intros g; apply Hgeo.
Qed.

(** X10: when the labels of the target are distinct, a row is decided by
    its own geometry: with [invertMask] a row of the target is kept exactly
    when its geometry satisfies the predicate with no filter geometry. *)
Theorem kept_rows_match_nothing (d f : Frame) op :
  NoDup (frame_index d) →
  ∃ K ids,
    Filter d f op true false = Returns (Ret2 K ids) ∧
    ∀ t, t ∈ rows K ↔
         t ∈ rows d ∧
         Forall (λ g, ¬ holds op (geometry g) (geometry t)) (rows f).
Proof.
  intros Hnd. rewrite Filter_returns. cbn zeta. eexists _, _.
  split; [reflexivity|]. intros t. cbn.
  rewrite list_elem_of_filter, elem_of_Match_Set, Forall_forall. split.
  - intros [Hout Ht]. split; [done|]. intros g Hg Hp.
    apply Hout. by exists t, g.
  - intros [Ht Hall]. split; [|done].
    intros (t' & g & Ht' & Hg & Hi & Hp).
    assert (t' = t) as -> by (by eapply NoDup_index_inj).
    by apply (Hall g).
Qed.

(** X11: rows that share a label share their fate.  When a row of the
    target satisfies the predicate with a filter geometry, every row of the
    target under the same label is removed with [invertMask] and kept
    without it, whatever its own geometry. *)
Theorem shared_label_shared_fate (d f : Frame) op t t' g :
  t ∈ rows d → t' ∈ rows d → index t = index t' →
  g ∈ rows f → holds op (geometry g) (geometry t') →
  ∃ K_inverted K_plain ids,
    Filter d f op true false = Returns (Ret2 K_inverted ids) ∧
    Filter d f op false false = Returns (Ret2 K_plain ids) ∧
    (t ∉ rows K_inverted) ∧ t ∈ rows K_plain ∧ index t ∈ ids.
Proof.
  intros Ht Ht' Hi Hg Hp. rewrite !Filter_returns. cbn zeta.
  eexists _, _, _. split; [reflexivity|]. split; [reflexivity|].
  assert (Hin : index t ∈ MatchSet op d f).
  { apply elem_of_Match_Set. by exists t', g. }
  cbn. rewrite !list_elem_of_filter, elem_of_sorted. tauto.
Qed.

(** X12: the order of the target rows only shows in the order of the
    selections.  For two target frames with the same rows in another order
    the returned list is the same, and the kept frames have the same rows. *)
Theorem target_order (d d' f : Frame) op invertMask :
  rows d ≡ₚ rows d' →
  ∃ K ids K',
    Filter d f op invertMask false = Returns (Ret2 K ids) ∧
    Filter d' f op invertMask false = Returns (Ret2 K' ids) ∧
    rows K ≡ₚ rows K'.
Proof.
  intros Hperm. rewrite !Filter_returns. cbn zeta.
  assert (MatchSet op d f = MatchSet op d' f) as <-.
  { apply set_eq. intros i. rewrite !elem_of_Match_Set.
    by setoid_rewrite Hperm. }
  destruct invertMask; eexists _, _, _;
    (split; [reflexivity|]); (split; [reflexivity|]); cbn; by rewrite Hperm.
Qed.

End FilterFurther.

(** * Further properties of the store layer *)

Section StoreFurther.
Context {Geom Attrs CRS : Type}.
Variable intersects contains : Geom → Geom → bool.

Local Abbreviation Frame := (GeoDataFrame Geom Attrs CRS).
Local Abbreviation Heap := (gmap nat Frame).

(** X13: the frames the function returns are new objects.  The kept frame,
    and the discarded frame when asked for, are at references that held no
    object before the call, so they are neither of the two arguments nor
    each other, and the call adds these objects to the store and no other. *)
Theorem returned_frames_are_new (h : Heap) d f (D F : Frame) op
    invertMask returnInverse :
  h !! d = Some D → h !! f = Some F →
  ∃ r h',
    Store.Filter_shapefile_by_intersection intersects contains
      d f op invertMask returnInverse h = (Returns r, h') ∧
    h !! kept r = None ∧ kept r ≠ d ∧ kept r ≠ f ∧
    match discarded r with
    | Some i =>
        h !! i = None ∧ i ≠ kept r ∧ i ≠ d ∧ i ≠ f ∧
        dom h' = dom h ∪ {[kept r; i]}
    | None => dom h' = dom h ∪ {[kept r]}
    end.
Proof.
  intros Hd Hf. unfold Store.Filter_shapefile_by_intersection.
  rewrite (bind_Returns _ _ _ _ _ (sjoin_run _ _ _ _ _ _ _ op Hf Hd)).
  cbn zeta.
  set (ids := sorted (set (index_right <$> sjoin intersects contains F D op))).
  assert (Hnew : ∀ (h0 : Heap) k, h0 !! k = None →
            (h0 !! d = Some D → k ≠ d) ∧ (h0 !! f = Some F → k ≠ f)).
  { intros h0 k Hk. split; intros Hx ->; congruence. }
  assert (Hsel : ∀ (h0 : Heap) (b : bool), h0 !! d = Some D →
    ∃ K k, (if b
            then idx ← Store.frame_index d;
                 Store.loc d (invert (isin idx ids))
            else idx ← Store.frame_index d;
                 Store.loc d (isin idx ids)) h0
           = (Returns k, <[k := K]> h0) ∧ h0 !! k = None).
  { intros h0 b Hd0. destruct b.
    - destruct (selection_run h0 d D _ (λ idx, invert (isin idx ids)) Hd0
                  (loc_invert_isin D ids)) as (k & Hrun & Hk). eauto.
    - destruct (selection_run h0 d D _ (λ idx, isin idx ids) Hd0
                  (loc_isin D ids)) as (k & Hrun & Hk). eauto. }
  destruct (Hsel h invertMask Hd) as (K & k & Hrun1 & Hk).
  rewrite (bind_Returns _ _ _ _ _ Hrun1).
  destruct (Hnew h k Hk) as [Hkd Hkf].
  destruct returnInverse.
  - assert (Hd' : <[k := K]> h !! d = Some D)
      by (rewrite lookup_insert_ne; auto).
    assert (Hswap : ∀ h0 : Heap,
      (if invertMask
       then idx ← Store.frame_index d; Store.loc d (isin idx ids)
       else idx ← Store.frame_index d; Store.loc d (invert (isin idx ids))) h0
      = (if negb invertMask
         then idx ← Store.frame_index d; Store.loc d (invert (isin idx ids))
         else idx ← Store.frame_index d; Store.loc d (isin idx ids)) h0)
      by (intros h0; by destruct invertMask).
    destruct (Hsel (<[k := K]> h) (negb invertMask) Hd') as (I & i & Hrun2 & Hi).
    rewrite <- Hswap in Hrun2. rewrite (bind_Returns _ _ _ _ _ Hrun2).
    eexists _, _. split; [reflexivity|]. cbn.
    assert (i ≠ k) by (intros ->; by rewrite lookup_insert_eq in Hi).
    assert (h !! i = None) by (by rewrite lookup_insert_ne in Hi).
    destruct (Hnew h i) as [Hid Hif]; [done|].
    split_and!; auto.
    rewrite !dom_insert_L. apply set_eq. intros x.
    rewrite !elem_of_union, !elem_of_singleton. tauto.
  - eexists _, _. split; [reflexivity|]. cbn.
    split_and!; auto. rewrite dom_insert_L. apply set_eq. intros x.
    rewrite !elem_of_union, !elem_of_singleton. tauto.
Qed.

End StoreFurther.

(** * Properties of the notebook's cells *)

Section NotebookProperties.
Context {Geom Attrs C : Type}.
Variable intersects contains : Geom → Geom → bool.
Variable transform : C → C → Geom → Geom.
Variable epsg3577 : C.

Local Abbreviation FileFrame := (GeoDataFrame Geom Attrs (option C)).
Local Abbreviation run :=
  (notebook (Attrs:=Attrs) intersects contains transform epsg3577).
Local Abbreviation reprojected c df :=
  (mkFrame (CRS:=option C) (reproject_row transform c epsg3577 <$> rows df)
           (Some epsg3577)).
Local Abbreviation MatchSet :=
  (Match_Set (Attrs:=Attrs) (CRS:=option C) intersects contains).

(** The cells in closed form, for files that carry a [crs]. *)
Lemma notebook_runs (R P : FileFrame) c1 c2 :
  crs R = Some c1 → crs P = Some c2 →
  run R P
  = let ids := MatchSet op_intersects (reprojected c2 P) (reprojected c1 R) in
    Done (mkFrame (rows (targets_not_in (reprojected c2 P) ids)) (Some epsg3577),
          sorted ids).
Proof.
  intros HR HP. unfold notebook, to_crs. rewrite HR, HP. cbn [mbind Cell_bind].
  by rewrite Filter_returns.
Qed.

Lemma frame_index_reprojected (P : FileFrame) c :
  frame_index (reprojected c P) = frame_index P.
Proof. unfold frame_index. cbn. by rewrite <- list_fmap_compose. Qed.

(** X15: the frame written is the waterbodies file with rows left out and
    geometries reprojected.  It is tagged EPSG:3577; its rows are rows of
    the reprojected file in the order of the file; labels and other
    columns are those of the file. *)
Theorem notebook_writes_file_rows (R P : FileFrame) c1 c2 :
  crs R = Some c1 → crs P = Some c2 →
  ∃ out Index,
    run R P = Done (out, Index) ∧
    crs out = Some epsg3577 ∧
    rows out `sublist_of` (reproject_row transform c2 epsg3577 <$> rows P) ∧
    (λ t, (index t, attributes t)) <$> rows out
      `sublist_of` (λ t, (index t, attributes t)) <$> rows P.
Proof.
  intros HR HP. rewrite (notebook_runs R P c1 c2 HR HP). cbn zeta.
  eexists _, _. split; [reflexivity|]. split; [done|].
  cbn [rows targets_not_in].
  assert (Hsub : ∀ ids : gset Z,
    filter (λ t : Row Geom Attrs, index t ∉ ids)
           (reproject_row transform c2 epsg3577 <$> rows P)
    `sublist_of` (reproject_row transform c2 epsg3577 <$> rows P))
    by (intros ids; apply sublist_filter).
  split; [apply Hsub|].
  assert ((λ t : Row Geom Attrs, (index t, attributes t)) <$> rows P
          = (λ t, (index t, attributes t)) <$>
              (reproject_row transform c2 epsg3577 <$> rows P)) as ->
    by (by rewrite <- list_fmap_compose).
  apply fmap_sublist, Hsub.
Qed.

(** X16: [Index] names the waterbodies left out of the written file: a
    label is in [Index] exactly when it is a label of the waterbodies file
    and no written row carries it. *)
Theorem notebook_Index (R P : FileFrame) c1 c2 :
  crs R = Some c1 → crs P = Some c2 →
  ∃ out Index,
    run R P = Done (out, Index) ∧
    ∀ i, i ∈ Index ↔ i ∈ frame_index P ∧ i ∉ frame_index out.
Proof.
  intros HR HP. rewrite (notebook_runs R P c1 c2 HR HP). cbn zeta.
  eexists _, _. split; [reflexivity|]. intros i.
  set (ids := MatchSet op_intersects (reprojected c2 P) (reprojected c1 R)).
  change (frame_index (mkFrame (rows (targets_not_in (reprojected c2 P) ids))
                               (Some epsg3577)))
    with (frame_index (targets_not_in (reprojected c2 P) ids)).
  rewrite elem_of_sorted, elem_of_index_targets_not_in,
    frame_index_reprojected.
  pose proof (Match_Set_index intersects contains
                (reprojected c2 P) (reprojected c1 R) op_intersects i) as Hidx.
  rewrite frame_index_reprojected in Hidx. fold ids in Hidx.
  destruct (decide (i ∈ ids)); tauto.
Qed.

(** X17: when the labels of the waterbodies file are distinct, a waterbody
    is written exactly when, after reprojection, it intersects no river. *)
Theorem notebook_removes_river_polygons (R P : FileFrame) c1 c2 :
  crs R = Some c1 → crs P = Some c2 → NoDup (frame_index P) →
  ∃ out Index,
    run R P = Done (out, Index) ∧
    ∀ s, s ∈ rows P →
      (reproject_row transform c2 epsg3577 s ∈ rows out ↔
       Forall (λ g, ¬ intersects (transform c1 epsg3577 (geometry g))
                                 (transform c2 epsg3577 (geometry s)))
              (rows R)).
Proof.
  intros HR HP Hnd. rewrite (notebook_runs R P c1 c2 HR HP). cbn zeta.
  eexists _, _. split; [reflexivity|]. intros s Hs.
  cbn [rows targets_not_in].
  rewrite list_elem_of_filter, elem_of_Match_Set, Forall_forall.
  assert (Hin : reproject_row transform c2 epsg3577 s
                ∈ reproject_row transform c2 epsg3577 <$> rows P)
    by (apply list_elem_of_fmap; eauto).
  split.
  - intros [Hout _] g Hg Hp. apply Hout.
    exists (reproject_row transform c2 epsg3577 s),
           (reproject_row transform c1 epsg3577 g).
    split_and!; [done| |done|done].
    cbn. apply list_elem_of_fmap. eauto.
  - intros Hall. split; [|done].
    intros (t & g & Ht & Hg & Hi & Hp). cbn in Ht, Hg.
    apply list_elem_of_fmap in Ht as (s' & -> & Hs').
    apply list_elem_of_fmap in Hg as (g' & -> & Hg').
    assert (s' = s) as -> by (by eapply NoDup_index_inj).
    by apply (Hall g').
Qed.

End NotebookProperties.

(** * The further properties on concrete inputs *)

Module SurveyFacts.
Import Line Survey.

(** Two polygons share label [1]; only the second is crossed by the river,
    and both are removed. *)
Example shared_label_removed :
  Filter SharedLabel MajorRivers op_intersects true false
  = Returns (Ret2 (mkFrame [mkRow 2 (30, 31)%Z ()] epsg3577) [1%Z]).
Proof. reflexivity. Qed.

(** Both files are in degrees; after reprojection the river crosses the
    waterbodies [4] and [9]. *)
Example notebook_on_files :
  run_notebook MajorRivers_file WaterPolygons_file
  = Done (mkFrame [mkRow 7 (0, 20)%Z ()] (Some epsg3577), [4; 9]%Z).
Proof. reflexivity. Qed.

Example notebook_on_naive_file :
  run_notebook MajorRivers_naive WaterPolygons_file = Failed NaiveGeometries.
Proof. reflexivity. Qed.

Lemma NoDup_ThreePolygons : NoDup (frame_index ThreePolygons).
Proof. exact (bool_decide_unpack (NoDup (frame_index ThreePolygons)) I). Qed.

Lemma NoDup_WaterPolygons_file : NoDup (frame_index WaterPolygons_file).
Proof.
  exact (bool_decide_unpack (NoDup (frame_index WaterPolygons_file)) I).
Qed.

Lemma MajorRivers_in_RiverSegments (g : Row Geom unit) :
  g ∈ rows MajorRivers → g ∈ rows RiverSegments.
Proof. cbn. intros ->%list_elem_of_singleton. left. Qed.

Lemma same_geometries (g : Geom) :
  g ∈ geometry <$> rows RiverSegments ↔
  g ∈ geometry <$> rows RiverSegments_again.
Proof. cbn. rewrite !elem_of_cons, !elem_of_nil. tauto. Qed.
End SurveyFacts.

Lemma IntersectIndex_counts_rows_witness :
  NoDup (frame_index Line.ThreePolygons) ∧
  ∃ K_inverted K_plain ids,
    Line.Filter Line.ThreePolygons Line.RiverSegments op_intersects true false
    = Returns (Ret2 K_inverted ids) ∧
    Line.Filter Line.ThreePolygons Line.RiverSegments op_intersects false false
    = Returns (Ret2 K_plain ids) ∧
    length (rows K_inverted) + length ids = length (rows Line.ThreePolygons) ∧
    length (rows K_plain) = length ids.
Proof.
  split; [exact SurveyFacts.NoDup_ThreePolygons|].
  apply (IntersectIndex_counts_rows Line.intersects Line.contains
           Line.ThreePolygons Line.RiverSegments op_intersects).
  exact SurveyFacts.NoDup_ThreePolygons.
Defined.

Lemma more_filter_removes_more_witness :
  (∀ g, g ∈ rows Line.MajorRivers → g ∈ rows Line.RiverSegments) ∧
  ∃ K ids K' ids',
    Line.Filter Line.ThreePolygons Line.MajorRivers op_intersects true false
    = Returns (Ret2 K ids) ∧
    Line.Filter Line.ThreePolygons Line.RiverSegments op_intersects true false
    = Returns (Ret2 K' ids') ∧
    ids ⊆ ids' ∧ rows K' `sublist_of` rows K.
Proof.
  split; [exact SurveyFacts.MajorRivers_in_RiverSegments|].
  apply (more_filter_removes_more Line.intersects Line.contains
           Line.ThreePolygons Line.MajorRivers Line.RiverSegments op_intersects).
  exact SurveyFacts.MajorRivers_in_RiverSegments.
Defined.

Lemma kept_rows_match_nothing_witness :
  NoDup (frame_index Line.ThreePolygons) ∧
  ∃ K ids,
    Line.Filter Line.ThreePolygons Line.RiverSegments op_intersects true false
    = Returns (Ret2 K ids) ∧
    ∀ t, t ∈ rows K ↔
         t ∈ rows Line.ThreePolygons ∧
         Forall (λ g, ¬ predicate Line.intersects Line.contains op_intersects
                          (geometry g) (geometry t))
                (rows Line.RiverSegments).
Proof.
  split; [exact SurveyFacts.NoDup_ThreePolygons|].
  apply (kept_rows_match_nothing Line.intersects Line.contains
           Line.ThreePolygons Line.RiverSegments op_intersects).
  exact SurveyFacts.NoDup_ThreePolygons.
Defined.

Lemma shared_label_shared_fate_witness :
  let t := mkRow 1 (0, 2)%Z () in
  let t' := mkRow 1 (5, 9)%Z () in
  let g := mkRow 0 (7, 20)%Z () in
  t ∈ rows Survey.SharedLabel ∧ t' ∈ rows Survey.SharedLabel ∧
  index t = index t' ∧ g ∈ rows Line.MajorRivers ∧
  predicate Line.intersects Line.contains op_intersects
    (geometry g) (geometry t') ∧
  ∃ K_inverted K_plain ids,
    Line.Filter Survey.SharedLabel Line.MajorRivers op_intersects true false
    = Returns (Ret2 K_inverted ids) ∧
    Line.Filter Survey.SharedLabel Line.MajorRivers op_intersects false false
    = Returns (Ret2 K_plain ids) ∧
    (t ∉ rows K_inverted) ∧ t ∈ rows K_plain ∧ index t ∈ ids.
Proof.
  intros t t' g.
  assert (H1 : t ∈ rows Survey.SharedLabel) by left.
  assert (H2 : t' ∈ rows Survey.SharedLabel) by (right; left).
  assert (H3 : index t = index t') by reflexivity.
  assert (H4 : g ∈ rows Line.MajorRivers) by left.
  assert (H5 : predicate Line.intersects Line.contains op_intersects
                 (geometry g) (geometry t')) by (vm_compute; exact I).
  split_and!; try done.
  exact (shared_label_shared_fate Line.intersects Line.contains
           Survey.SharedLabel Line.MajorRivers op_intersects t t' g
           H1 H2 H3 H4 H5).
Defined.

Lemma target_order_witness :
  let reversed := mkFrame (reverse (rows Line.ThreePolygons)) Line.epsg3577 in
  rows Line.ThreePolygons ≡ₚ rows reversed ∧
  ∃ K ids K',
    Line.Filter Line.ThreePolygons Line.RiverSegments op_intersects true false
    = Returns (Ret2 K ids) ∧
    Line.Filter reversed Line.RiverSegments op_intersects true false
    = Returns (Ret2 K' ids) ∧
    rows K ≡ₚ rows K'.
Proof.
  intros reversed.
  assert (H : rows Line.ThreePolygons ≡ₚ rows reversed)
    by (symmetry; apply reverse_Permutation).
  split; [exact H|].
  exact (target_order Line.intersects Line.contains Line.ThreePolygons
           reversed Line.RiverSegments op_intersects true H).
Defined.

Lemma returned_frames_are_new_witness :
  Line.notebook_store !! 0%nat = Some Line.WaterPolygons ∧
  Line.notebook_store !! 1%nat = Some Line.MajorRivers ∧
  ∃ r h',
    Store.Filter_shapefile_by_intersection Line.intersects Line.contains
      0%nat 1%nat op_intersects true true Line.notebook_store
    = (Returns r, h') ∧
    Line.notebook_store !! kept r = None ∧ kept r ≠ 0%nat ∧ kept r ≠ 1%nat ∧
    match discarded r with
    | Some i =>
        Line.notebook_store !! i = None ∧ i ≠ kept r ∧ i ≠ 0%nat ∧ i ≠ 1%nat ∧
        dom h' = dom Line.notebook_store ∪ {[kept r; i]}
    | None => dom h' = dom Line.notebook_store ∪ {[kept r]}
    end.
Proof.
  split; [reflexivity|]. split; [reflexivity|].
  apply (returned_frames_are_new Line.intersects Line.contains
           Line.notebook_store 0%nat 1%nat Line.WaterPolygons Line.MajorRivers
           op_intersects true true); reflexivity.
Defined.

Lemma notebook_writes_file_rows_witness :
  crs Survey.MajorRivers_file = Some Line.epsg4326 ∧
  crs Survey.WaterPolygons_file = Some Line.epsg4326 ∧
  ∃ out Index,
    Survey.run_notebook Survey.MajorRivers_file Survey.WaterPolygons_file
    = Done (out, Index) ∧
    crs out = Some Line.epsg3577 ∧
    rows out `sublist_of`
      (reproject_row Survey.transform Line.epsg4326 Line.epsg3577
         <$> rows Survey.WaterPolygons_file) ∧
    (λ t, (index t, attributes t)) <$> rows out
      `sublist_of`
      (λ t, (index t, attributes t)) <$> rows Survey.WaterPolygons_file.
Proof.
  split; [reflexivity|]. split; [reflexivity|].
  apply (notebook_writes_file_rows Line.intersects Line.contains
           Survey.transform Line.epsg3577
           Survey.MajorRivers_file Survey.WaterPolygons_file
           Line.epsg4326 Line.epsg4326); reflexivity.
Defined.

Lemma notebook_Index_witness :
  crs Survey.MajorRivers_file = Some Line.epsg4326 ∧
  crs Survey.WaterPolygons_file = Some Line.epsg4326 ∧
  ∃ out Index,
    Survey.run_notebook Survey.MajorRivers_file Survey.WaterPolygons_file
    = Done (out, Index) ∧
    ∀ i, i ∈ Index ↔
         i ∈ frame_index Survey.WaterPolygons_file ∧ i ∉ frame_index out.
Proof.
  split; [reflexivity|]. split; [reflexivity|].
  apply (notebook_Index Line.intersects Line.contains
           Survey.transform Line.epsg3577
           Survey.MajorRivers_file Survey.WaterPolygons_file
           Line.epsg4326 Line.epsg4326); reflexivity.
Defined.

Lemma notebook_removes_river_polygons_witness :
  crs Survey.MajorRivers_file = Some Line.epsg4326 ∧
  crs Survey.WaterPolygons_file = Some Line.epsg4326 ∧
  NoDup (frame_index Survey.WaterPolygons_file) ∧
  ∃ out Index,
    Survey.run_notebook Survey.MajorRivers_file Survey.WaterPolygons_file
    = Done (out, Index) ∧
    ∀ s, s ∈ rows Survey.WaterPolygons_file →
      (reproject_row Survey.transform Line.epsg4326 Line.epsg3577 s ∈ rows out ↔
       Forall (λ g, ¬ Line.intersects
                        (Survey.transform Line.epsg4326 Line.epsg3577 (geometry g))
                        (Survey.transform Line.epsg4326 Line.epsg3577 (geometry s)))
              (rows Survey.MajorRivers_file)).
Proof.
  split; [reflexivity|]. split; [reflexivity|].
  split; [exact SurveyFacts.NoDup_WaterPolygons_file|].
  apply (notebook_removes_river_polygons Line.intersects Line.contains
           Survey.transform Line.epsg3577
           Survey.MajorRivers_file Survey.WaterPolygons_file
           Line.epsg4326 Line.epsg4326);
    [reflexivity|reflexivity|exact SurveyFacts.NoDup_WaterPolygons_file].
Defined.


(** * The call with the checks of the library *)

Section LibProperties.
Context {Geom Attrs CRS : Type} `{!EqDecision CRS}.
Variable intersects contains : Geom → Geom → bool.
Variable release : Lib.Release.

Local Abbreviation Frame := (GeoDataFrame Geom Attrs CRS).
Local Abbreviation Table := (Lib.Table Geom Attrs CRS).
Local Abbreviation join := (Lib.gp_sjoin intersects contains release).
Local Abbreviation Filter :=
  (Lib.Filter_shapefile_by_intersection intersects contains release).

(** The join in closed form: what it warns about, and what it raises or
    returns. *)
Lemma gp_sjoin_warnings (l r : Table) op :
  Lib.warnings (join l r op)
  = if decide (crs (Lib.frame l) = crs (Lib.frame r))
    then [] else [Lib.CRSMismatch].
Proof.
  unfold Lib.gp_sjoin, mbind, Lib.Run_bind.
  destruct (decide (crs (Lib.frame l) = crs (Lib.frame r)));
    destruct (decide (Lib.reserved l ∨ Lib.reserved r));
    destruct release; destruct (Lib.no_rows l || Lib.no_rows r); reflexivity.
Qed.

Lemma gp_sjoin_outcome (l r : Table) op :
  Lib.outcome (join l r op)
  = if decide (Lib.reserved l ∨ Lib.reserved r)
    then inl Lib.ValueError_index_names
    else match release with
         | Lib.upto_0_7 =>
             if Lib.no_rows l || Lib.no_rows r
             then inl Lib.TypeError_no_rows
             else inr (sjoin intersects contains (Lib.frame l) (Lib.frame r) op)
         | Lib.from_0_8 =>
             inr (sjoin intersects contains (Lib.frame l) (Lib.frame r) op)
         end.
Proof.
  unfold Lib.gp_sjoin, mbind, Lib.Run_bind.
  destruct (decide (crs (Lib.frame l) = crs (Lib.frame r)));
    destruct (decide (Lib.reserved l ∨ Lib.reserved r));
    destruct release; destruct (Lib.no_rows l || Lib.no_rows r); reflexivity.
Qed.

Lemma Filter_warnings (d f : Table) op invertMask returnInverse :
  Lib.warnings (Filter d f op invertMask returnInverse)
  = Lib.warnings (join f d op).
Proof.
  unfold Lib.Filter_shapefile_by_intersection, mbind, Lib.Run_bind.
  destruct (Lib.outcome (join f d op)) as [e|J]; [done|]. cbn.
  rewrite Filter_after_join_returns. cbn. apply app_nil_r.
Qed.

(** The run is the join's, followed by the value the statements after the
    join compute. *)
Lemma Filter_outcome (d f : Table) op invertMask returnInverse :
  Lib.outcome (Filter d f op invertMask returnInverse)
  = match Lib.outcome (join f d op) with
    | inl e => inl e
    | inr J =>
        match Filter_after_join (Lib.frame d) J invertMask returnInverse with
        | Returns r => inr r
        | Raises e => inl (Lib.by_statements e)
        end
    end.
Proof.
  unfold Lib.Filter_shapefile_by_intersection, mbind, Lib.Run_bind.
  destruct (Lib.outcome (join f d op)) as [e|J]; [done|]. cbn.
  by destruct (Filter_after_join (Lib.frame d) J invertMask returnInverse).
Qed.

Lemma no_rows_nil (t : Table) : Lib.no_rows t = true ↔ rows (Lib.frame t) = [].
Proof. unfold Lib.no_rows. by destruct (rows (Lib.frame t)). Qed.

Lemma sjoin_no_rows (d f : Frame) op :
  rows d = [] ∨ rows f = [] → sjoin intersects contains f d op = [].
Proof.
  unfold sjoin. intros [->| ->]; [|done].
  induction (rows f) as [|g gs IH]; [done|]. exact IH.
Qed.

Lemma Filter_after_empty_join (d : Frame) invertMask returnInverse :
  ∃ r, Filter_after_join d [] invertMask returnInverse = Returns r ∧
       excludedIds r = [].
Proof.
  rewrite Filter_after_join_returns. cbn zeta.
  change (set (index_right <$> [])) with (∅ : gset Z). rewrite sorted_empty.
  eexists. split; [reflexivity|]. by destruct invertMask, returnInverse.
Qed.

(** C5, as the code has it: the function makes no check for empty
    collections and raises no error of its own for them.  With an empty
    target or filter collection the call does what the join does: where the
    join takes a frame without rows (geopandas from 0.8 on) the function
    returns normally and the returned [IntersectIndex] is empty; where the
    join fails on such a frame (up to 0.7) its error passes through; and on
    every release a column named [index_left] or [index_right] makes the
    join refuse the frames. *)
Theorem empty_collection_outcome (d f : Table) op invertMask returnInverse :
  rows (Lib.frame d) = [] ∨ rows (Lib.frame f) = [] →
  (Lib.reserved f ∨ Lib.reserved d →
     Lib.outcome (Filter d f op invertMask returnInverse)
     = inl Lib.ValueError_index_names) ∧
  (¬ (Lib.reserved f ∨ Lib.reserved d) → release = Lib.upto_0_7 →
     Lib.outcome (Filter d f op invertMask returnInverse)
     = inl Lib.TypeError_no_rows) ∧
  (¬ (Lib.reserved f ∨ Lib.reserved d) → release = Lib.from_0_8 →
     ∃ r, Lib.outcome (Filter d f op invertMask returnInverse) = inr r ∧
          excludedIds r = []) ∧
  (∀ e, Lib.outcome (Filter d f op invertMask returnInverse)
        ≠ inl (Lib.by_statements e)).
Proof.
  intros Hempty. rewrite Filter_outcome, gp_sjoin_outcome.
  assert (Hno : Lib.no_rows f || Lib.no_rows d = true).
  { apply orb_true_iff. rewrite !no_rows_nil. tauto. }
  rewrite Hno, (sjoin_no_rows _ _ op Hempty).
  destruct (Filter_after_empty_join (Lib.frame d) invertMask returnInverse)
    as (r & Hr & Hids).
  destruct (decide (Lib.reserved f ∨ Lib.reserved d)) as [Hres|Hres],
    release; rewrite ?Hr; split_and!;
    try (intros; first [done | tauto | congruence]).
  intros _ _. eauto.
Qed.

(** C6: when the two collections carry different coordinate reference
    systems, the call surfaces it as a warning.  The warning comes from
    the join, the first statement of the function (the function's own
    assertion is commented out); the join emits it on entry, before its
    checks and before it joins, so it is there on every release and
    whether the call then returns or raises.  The warning is all the
    mismatch changes: the outcome is that of the call on the filter
    collection tagged with the target's system. *)
Theorem crs_mismatch_is_warned (d f : Table) op invertMask returnInverse :
  crs (Lib.frame d) ≠ crs (Lib.frame f) →
  Lib.warnings (join f d op) = [Lib.CRSMismatch] ∧
  Lib.warnings (Filter d f op invertMask returnInverse) = [Lib.CRSMismatch] ∧
  Lib.outcome (Filter d f op invertMask returnInverse)
  = Lib.outcome
      (Filter d (Lib.mkTable (mkFrame (rows (Lib.frame f)) (crs (Lib.frame d)))
                             (Lib.columns f))
              op invertMask returnInverse).
Proof.
  intros Hcrs.
  assert (Hw : Lib.warnings (join f d op) = [Lib.CRSMismatch]).
  { rewrite gp_sjoin_warnings. by rewrite decide_False. }
  split; [exact Hw|]. split; [by rewrite Filter_warnings|].
  by rewrite !Filter_outcome, !gp_sjoin_outcome.
Qed.

(** X1: the function fails only in the join.  The statements after the
    join never raise, whatever rows the join returned: every mask they
    build has the length of the target frame.  So the call raises exactly
    when the join raises, and then the join's error; otherwise it returns
    a triple when [returnInverse] is set and a pair when not.  The
    warnings of the call are those of the join. *)
Theorem Filter_fails_only_in_join (d f : Table) op invertMask returnInverse :
  (∀ J, ∃ r,
     Filter_after_join (Lib.frame d) J invertMask returnInverse = Returns r ∧
     (is_Some (discarded r) ↔ returnInverse = true)) ∧
  Lib.warnings (Filter d f op invertMask returnInverse)
  = Lib.warnings (join f d op) ∧
  match Lib.outcome (join f d op) with
  | inl e => Lib.outcome (Filter d f op invertMask returnInverse) = inl e
  | inr J =>
      ∃ r, Lib.outcome (Filter d f op invertMask returnInverse) = inr r ∧
           Filter_after_join (Lib.frame d) J invertMask returnInverse
           = Returns r
  end.
Proof.
  assert (Hafter : ∀ J, ∃ r,
     Filter_after_join (Lib.frame d) J invertMask returnInverse = Returns r ∧
     (is_Some (discarded r) ↔ returnInverse = true)).
  { intros J. rewrite Filter_after_join_returns. cbn zeta.
    eexists. split; [reflexivity|].
    destruct invertMask, returnInverse; cbn;
      (split; [intros [? ?]|]; by eauto). }
  split; [exact Hafter|]. split; [apply Filter_warnings|].
  rewrite Filter_outcome.
  destruct (Lib.outcome (join f d op)) as [e|J]; [done|].
  destruct (Hafter J) as (r & -> & _). eauto.
Qed.

(** X9: of the filter collection, beyond what the join checks on entry
    (whether a column is named [index_left] or [index_right], and whether
    its [crs] is the target's), only the geometries count.  Two filter
    collections that agree on the two checks and have the same geometries,
    whatever their labels, the contents of their other columns, the order
    of their rows and their repetitions, give the same run: the same
    warnings and the same value or error. *)
Theorem only_filter_geometries_count (d f f' : Table) op invertMask returnInverse :
  (∀ g, g ∈ geometry <$> rows (Lib.frame f) ↔
        g ∈ geometry <$> rows (Lib.frame f')) →
  (Lib.reserved f ↔ Lib.reserved f') →
  (crs (Lib.frame f) = crs (Lib.frame d) ↔
   crs (Lib.frame f') = crs (Lib.frame d)) →
  Filter d f op invertMask returnInverse
  = Filter d f' op invertMask returnInverse.
Proof.
  intros Hgeo Hres Hcrs.
  assert (Hno : Lib.no_rows f = Lib.no_rows f').
  { unfold Lib.no_rows.
    destruct (rows (Lib.frame f)) as [|g gs] eqn:Hf,
             (rows (Lib.frame f')) as [|g' gs'] eqn:Hf'; try done.
    - destruct (Hgeo (geometry g')) as [_ Hin].
      by apply not_elem_of_nil in Hin; [|left].
    - destruct (Hgeo (geometry g)) as [Hin _].
      by apply not_elem_of_nil in Hin; [|left]. }
  assert (Hval : ∀ J J',
    J = sjoin intersects contains (Lib.frame f) (Lib.frame d) op →
    J' = sjoin intersects contains (Lib.frame f') (Lib.frame d) op →
    Filter_after_join (Lib.frame d) J invertMask returnInverse
    = Filter_after_join (Lib.frame d) J' invertMask returnInverse).
  { intros J J' -> ->.
    apply (Filter_same_geometries intersects contains
             (Lib.frame d) (Lib.frame f) (Lib.frame f') op
             invertMask returnInverse Hgeo). }
  assert (Hrun : ∀ r1 r2 : Lib.Run (Returned Frame),
    Lib.warnings r1 = Lib.warnings r2 → Lib.outcome r1 = Lib.outcome r2 →
    r1 = r2) by (intros [] []; cbn; congruence).
  apply Hrun.
  - rewrite !Filter_warnings, !gp_sjoin_warnings.
    by apply decide_ext.
  - rewrite !Filter_outcome, !gp_sjoin_outcome, Hno.
    rewrite (decide_ext (Lib.reserved f ∨ Lib.reserved d)
                        (Lib.reserved f' ∨ Lib.reserved d)) by tauto.
    destruct (decide _); [done|].
    destruct release, (Lib.no_rows f' || Lib.no_rows d);
      try done; by erewrite Hval.
Qed.

End LibProperties.

Lemma Run_warnings_bind {A B} (m : Lib.Run A) (k : A → Lib.Run B) :
  Lib.warnings (m ≫= k)
  = Lib.warnings m ++ match Lib.outcome m with
                      | inl _ => []
                      | inr a => Lib.warnings (k a)
                      end.
Proof.
  unfold mbind, Lib.Run_bind. destruct (Lib.outcome m); cbn; [|done].
  by rewrite app_nil_r.
Qed.

Lemma Run_outcome_bind {A B} (m : Lib.Run A) (k : A → Lib.Run B) :
  Lib.outcome (m ≫= k)
  = match Lib.outcome m with
    | inl e => inl e
    | inr a => Lib.outcome (k a)
    end.
Proof. unfold mbind, Lib.Run_bind. by destruct (Lib.outcome m). Qed.

Lemma Run_ret_bind {A B} (a : A) (k : A → Lib.Run B) : mret a ≫= k = k a.
Proof. unfold mbind, mret, Lib.Run_bind, Lib.Run_ret. cbn. by destruct (k a). Qed.

Section LibNotebookProperties.
Context {Geom Attrs C : Type} `{!EqDecision C}.
Variable intersects contains : Geom → Geom → bool.
Variable release : Lib.Release.
Variable transform : C → C → Geom → Geom.
Variable epsg3577 : C.

Local Abbreviation FileTable := (Lib.Table Geom Attrs (option C)).
Local Abbreviation cells_value :=
  (notebook (Attrs:=Attrs) intersects contains transform epsg3577).

Lemma Lib_to_crs_Some (T : FileTable) c :
  crs (Lib.frame T) = Some c →
  Lib.to_crs transform T epsg3577
  = mret (Lib.mkTable
            (mkFrame (reproject_row transform c epsg3577 <$> rows (Lib.frame T))
                     (Some epsg3577))
            (Lib.columns T)).
Proof. intros HT. unfold Lib.to_crs, to_crs. by rewrite HT. Qed.

Lemma Lib_to_crs_None (T : FileTable) :
  crs (Lib.frame T) = None →
  Lib.to_crs transform T epsg3577
  = Lib.raise (Lib.by_cells NaiveGeometries).
Proof. intros HT. unfold Lib.to_crs, to_crs. by rewrite HT. Qed.

(** The cells with the checks of the join, in closed form. *)
Lemma Lib_notebook_run (R P : FileTable) c1 c2 :
  crs (Lib.frame R) = Some c1 → crs (Lib.frame P) = Some c2 →
  Lib.warnings
    (Lib.notebook intersects contains release transform epsg3577 R P) = [] ∧
  Lib.outcome
    (Lib.notebook intersects contains release transform epsg3577 R P)
  = if decide (Lib.reserved R ∨ Lib.reserved P)
    then inl Lib.ValueError_index_names
    else if match release with
            | Lib.upto_0_7 => Lib.no_rows R || Lib.no_rows P
            | Lib.from_0_8 => false
            end
         then inl Lib.TypeError_no_rows
         else match cells_value (Lib.frame R) (Lib.frame P) with
              | Done x => inr x
              | Failed e => inl (Lib.by_cells e)
              end.
Proof.
  intros HR HP. unfold Lib.notebook.
  rewrite (Lib_to_crs_Some R c1 HR), Run_ret_bind.
  rewrite (Lib_to_crs_Some P c2 HP), Run_ret_bind.
  rewrite (notebook_runs intersects contains transform epsg3577
             (Lib.frame R) (Lib.frame P) c1 c2 HR HP). cbn zeta.
  rewrite Run_warnings_bind, Run_outcome_bind.
  rewrite Filter_warnings, Filter_outcome, gp_sjoin_warnings, gp_sjoin_outcome.
  cbn [Lib.frame Lib.columns crs rows].
  rewrite decide_True by done.
  assert (Hno : ∀ (T : FileTable) c cols,
    Lib.no_rows (Lib.mkTable
                   (mkFrame (reproject_row transform c epsg3577
                               <$> rows (Lib.frame T))
                            (Some epsg3577)) cols)
    = Lib.no_rows T).
  { intros T c cols. unfold Lib.no_rows. cbn.
    by destruct (rows (Lib.frame T)). }
  rewrite (Hno R c1), (Hno P c2).
  change (Lib.reserved (Lib.mkTable ?F (Lib.columns R)))
    with (Lib.reserved R).
  change (Lib.reserved (Lib.mkTable ?F (Lib.columns P)))
    with (Lib.reserved P).
  destruct (decide (Lib.reserved R ∨ Lib.reserved P)); [done|].
  destruct release, (Lib.no_rows R || Lib.no_rows P); try done;
    rewrite Filter_after_join_returns; cbn zeta;
    rewrite set_join_index; split; reflexivity.
Qed.

Lemma Lib_notebook_naive (R P : FileTable) :
  crs (Lib.frame R) = None ∨ crs (Lib.frame P) = None →
  Lib.notebook intersects contains release transform epsg3577 R P
  = Lib.raise (Lib.by_cells NaiveGeometries) ∧
  cells_value (Lib.frame R) (Lib.frame P) = Failed NaiveGeometries.
Proof.
  intros Hnone. unfold Lib.notebook, notebook.
  destruct (crs (Lib.frame R)) as [c1|] eqn:HR.
  - destruct Hnone as [?|HP]; [done|].
    rewrite (Lib_to_crs_Some R c1 HR), Run_ret_bind, (Lib_to_crs_None P HP).
    unfold to_crs. by rewrite HR, HP.
  - rewrite (Lib_to_crs_None R HR). unfold to_crs. by rewrite HR.
Qed.


End LibNotebookProperties.

(** * The checks of the library on concrete inputs *)

Module LibFacts.
Import Line.

(** The rivers in another system than the waterbodies: a warning, and the
    result of the reprojected rivers. *)
Example unprojected_rivers :
  Tables.Filter Lib.from_0_8 Tables.WaterPolygons Tables.MajorRivers_unprojected
    op_intersects true false
  = Lib.mkRun [Lib.CRSMismatch]
      (inr (Ret2 (mkFrame [mkRow 0 (0, 2)%Z ()] epsg3577) [1%Z])).
Proof. reflexivity. Qed.

Example reprojected_rivers :
  Tables.Filter Lib.from_0_8 Tables.WaterPolygons Tables.MajorRivers
    op_intersects true false
  = Lib.mkRun [] (inr (Ret2 (mkFrame [mkRow 0 (0, 2)%Z ()] epsg3577) [1%Z])).
Proof. reflexivity. Qed.

(** No rivers: the releases differ. *)
Example no_rivers_upto_0_7 :
  Tables.Filter Lib.upto_0_7 Tables.WaterPolygons Tables.NoRivers
    op_intersects true false
  = Lib.mkRun [] (inl Lib.TypeError_no_rows).
Proof. reflexivity. Qed.

(** A column left by an earlier join. *)
Example rivers_joined_before :
  Tables.Filter Lib.from_0_8 Tables.WaterPolygons Tables.MajorRivers_joined
    op_intersects true false
  = Lib.mkRun [] (inl Lib.ValueError_index_names).
Proof. reflexivity. Qed.

Example notebook_on_files_with_checks :
  Tables.run_notebook Lib.upto_0_7
    Tables.MajorRivers_file Tables.WaterPolygons_file
  = Lib.mkRun [] (inr (mkFrame [mkRow 7 (0, 20)%Z ()] (Some epsg3577),
                       [4; 9]%Z)).
Proof. reflexivity. Qed.

Lemma no_reserved_RiverSegments : ¬ Lib.reserved Tables.RiverSegments.
Proof. exact (bool_decide_unpack (¬ Lib.reserved Tables.RiverSegments) I). Qed.

Lemma no_reserved_RiverSegments_again :
  ¬ Lib.reserved Tables.RiverSegments_again.
Proof.
  exact (bool_decide_unpack (¬ Lib.reserved Tables.RiverSegments_again) I).
Qed.
End LibFacts.

(** C5 as stated fails: on a release from 0.8 on, with no rivers at all,
    the call returns the whole target and an empty list; nothing is
    raised. *)
Lemma empty_filter_returns :
  (rows (Lib.frame Tables.WaterPolygons) = [] ∨
   rows (Lib.frame Tables.NoRivers) = []) ∧
  Tables.Filter Lib.from_0_8 Tables.WaterPolygons Tables.NoRivers
    op_intersects true false
  = Lib.mkRun [] (inr (Ret2 Line.WaterPolygons [])) ∧
  ¬ ∃ e, Lib.outcome
           (Tables.Filter Lib.from_0_8 Tables.WaterPolygons Tables.NoRivers
              op_intersects true false) = inl e.
Proof.
  split; [by right|]. split; [reflexivity|]. by intros [e He].
Qed.

Lemma empty_collection_outcome_witness :
  (rows (Lib.frame Tables.WaterPolygons) = [] ∨
   rows (Lib.frame Tables.NoRivers) = []) ∧
  ((Lib.reserved Tables.NoRivers ∨ Lib.reserved Tables.WaterPolygons →
      Lib.outcome
        (Tables.Filter Lib.from_0_8 Tables.WaterPolygons Tables.NoRivers
           op_intersects true false)
      = inl Lib.ValueError_index_names) ∧
   (¬ (Lib.reserved Tables.NoRivers ∨ Lib.reserved Tables.WaterPolygons) →
      Lib.from_0_8 = Lib.upto_0_7 →
      Lib.outcome
        (Tables.Filter Lib.from_0_8 Tables.WaterPolygons Tables.NoRivers
           op_intersects true false)
      = inl Lib.TypeError_no_rows) ∧
   (¬ (Lib.reserved Tables.NoRivers ∨ Lib.reserved Tables.WaterPolygons) →
      Lib.from_0_8 = Lib.from_0_8 →
      ∃ r, Lib.outcome
             (Tables.Filter Lib.from_0_8 Tables.WaterPolygons Tables.NoRivers
                op_intersects true false) = inr r ∧
           excludedIds r = []) ∧
   (∀ e, Lib.outcome
           (Tables.Filter Lib.from_0_8 Tables.WaterPolygons Tables.NoRivers
              op_intersects true false)
         ≠ inl (Lib.by_statements e))).
Proof.
  split; [right; reflexivity|].
  apply (empty_collection_outcome Line.intersects Line.contains Lib.from_0_8
           Tables.WaterPolygons Tables.NoRivers op_intersects true false).
  right; reflexivity.
Defined.

Lemma crs_mismatch_is_warned_witness :
  crs (Lib.frame Tables.WaterPolygons)
  ≠ crs (Lib.frame Tables.MajorRivers_unprojected) ∧
  Lib.warnings
    (Lib.gp_sjoin Line.intersects Line.contains Lib.upto_0_7
       Tables.MajorRivers_unprojected Tables.WaterPolygons op_intersects)
  = [Lib.CRSMismatch] ∧
  Lib.warnings
    (Tables.Filter Lib.upto_0_7 Tables.WaterPolygons
       Tables.MajorRivers_unprojected op_intersects true false)
  = [Lib.CRSMismatch] ∧
  Lib.outcome
    (Tables.Filter Lib.upto_0_7 Tables.WaterPolygons
       Tables.MajorRivers_unprojected op_intersects true false)
  = Lib.outcome
      (Tables.Filter Lib.upto_0_7 Tables.WaterPolygons
         (Lib.mkTable
            (mkFrame (rows (Lib.frame Tables.MajorRivers_unprojected))
                     (crs (Lib.frame Tables.WaterPolygons)))
            (Lib.columns Tables.MajorRivers_unprojected))
         op_intersects true false).
Proof.
  assert (H : crs (Lib.frame Tables.WaterPolygons)
              ≠ crs (Lib.frame Tables.MajorRivers_unprojected))
    by (vm_compute; discriminate).
  split; [exact H|].
  exact (crs_mismatch_is_warned Line.intersects Line.contains Lib.upto_0_7
           Tables.WaterPolygons Tables.MajorRivers_unprojected
           op_intersects true false H).
Defined.

Lemma only_filter_geometries_count_witness :
  (∀ g, g ∈ geometry <$> rows (Lib.frame Tables.RiverSegments) ↔
        g ∈ geometry <$> rows (Lib.frame Tables.RiverSegments_again)) ∧
  (Lib.reserved Tables.RiverSegments ↔
   Lib.reserved Tables.RiverSegments_again) ∧
  (crs (Lib.frame Tables.RiverSegments)
   = crs (Lib.frame Tables.ThreePolygons) ↔
   crs (Lib.frame Tables.RiverSegments_again)
   = crs (Lib.frame Tables.ThreePolygons)) ∧
  Tables.Filter Lib.from_0_8 Tables.ThreePolygons Tables.RiverSegments
    op_intersects true true
  = Tables.Filter Lib.from_0_8 Tables.ThreePolygons Tables.RiverSegments_again
      op_intersects true true.
Proof.
  assert (H1 : ∀ g, g ∈ geometry <$> rows (Lib.frame Tables.RiverSegments) ↔
                    g ∈ geometry <$> rows (Lib.frame Tables.RiverSegments_again))
    by exact SurveyFacts.same_geometries.
  assert (H2 : Lib.reserved Tables.RiverSegments ↔
               Lib.reserved Tables.RiverSegments_again).
  { pose proof LibFacts.no_reserved_RiverSegments.
    pose proof LibFacts.no_reserved_RiverSegments_again. tauto. }
  assert (H3 : crs (Lib.frame Tables.RiverSegments)
               = crs (Lib.frame Tables.ThreePolygons) ↔
               crs (Lib.frame Tables.RiverSegments_again)
               = crs (Lib.frame Tables.ThreePolygons))
    by (split; reflexivity).
  split; [exact H1|]. split; [exact H2|]. split; [exact H3|].
  exact (only_filter_geometries_count Line.intersects Line.contains
           Lib.from_0_8 Tables.ThreePolygons Tables.RiverSegments
           Tables.RiverSegments_again op_intersects true true H1 H2 H3).
Defined.
